(** * CovidDashboard.py: the aggregation / filtering pipeline and its charts

    A shallow embedding of [src/CovidDashboard.py].

    - A pandas [DataFrame] is the list of its rows, in index order.
    - The count columns (Confirmed, Deaths, ...) are int64: integers ([Z])
      of [-2^63, 2^63), whose sums wrap around.
    - The two rate columns are float64.  A float64 cell is represented by the
      rational number it holds ([Q]); the program never produces a NaN or an
      infinity in them, since [np.where] masks the only division by zero.
      Each float64 operation is the exact operation followed by the rounding
      [rnd] of the class [Binary64]; [round53] is round-to-nearest-even on
      53 significant bits.
    - pandas' ['mean'] reducer, [plotly.express] and
      [scipy.stats.gaussian_kde] are not part of the repository: they are
      parameters of the development ([GroupMean], [Plotly], [gaussian_kde]).
    - A call that can raise returns a [result]. *)

From Stdlib Require Import List ZArith QArith Qpower Bool Lia.
From Stdlib Require Import String Ascii.
From Stdlib Require Import Permutation Sorted.
From Stdlib Require Import DecimalString.
Import ListNotations.

Local Open Scope Z_scope.
Local Open Scope string_scope.
Local Open Scope list_scope.

(** ** Results of fallible calls *)

Inductive exn : Type :=
| ValueError
| KeyError
| LinAlgError.

Inductive result (A : Type) : Type :=
| Ok (a : A)
| Raise (e : exn).

Arguments Ok {A} a.
Arguments Raise {A} e.

(** ** Tables *)

(** One record of [country_wise_latest.csv] after [fillna(0)] (line 11):
    only the columns the program reads. *)
Record raw_record : Type := mkRaw {
  raw_Country : string;
  raw_WHO_Region : string;
  raw_Confirmed : Z;
  raw_Deaths : Z;
  raw_Recovered : Z;
  raw_Active : Z;
  raw_New_cases : Z;
  raw_New_deaths : Z;
  raw_New_recovered : Z
}.

(** A row of [data] after lines 13-14, and also a row of [grouped_data]:
    both frames have the same columns. *)
Record row : Type := mkRow {
  Country : string;
  WHO_Region : string;
  Confirmed : Z;
  Deaths : Z;
  Recovered : Z;
  Active : Z;
  New_cases : Z;
  New_deaths : Z;
  New_recovered : Z;
  CFR : Q;
  RecoveryRate : Q
}.

Definition table : Type := list row.

(** ** Machine numbers *)

(** The int64 value of an integer, and int64 addition. *)
Definition wrap64 (z : Z) : Z := (z + 2 ^ 63) mod 2 ^ 64 - 2 ^ 63.

Definition add64 (a b : Z) : Z := wrap64 (a + b).

Definition in_int64 (z : Z) : Prop := - 2 ^ 63 <= z < 2 ^ 63.

(** The rounding of an exact result to the float64 cell that holds it. *)
Class Binary64 : Type := { rnd : Q -> Q }.

Section Float64.
Context {fl : Binary64}.

(** The conversion of an int64 cell, the division and the multiplication of
    float64: each is correctly rounded. *)
Definition of_int (n : Z) : Q := rnd (inject_Z n).
Definition fdiv (a b : Q) : Q := rnd (a / b)%Q.
Definition fmul (a b : Q) : Q := rnd (a * b)%Q.
End Float64.

(** Round-to-nearest-even on 53 significant bits: the rounding of float64
    wherever the result is neither a subnormal nor out of range (here:
    quotients of int64 values and their products by 100). *)

(** [2^e <= n / d], for positive [n] and [d]. *)
Definition pow2_le (e n d : Z) : bool :=
  if (0 <=? e)%Z then (d * 2 ^ e <=? n)%Z else (d <=? n * 2 ^ (- e))%Z.

(** The binary exponent of [n / d]: [2^e <= n / d < 2^(e + 1)]. *)
Definition ilog2 (n d : Z) : Z :=
  let e := Z.log2 n - Z.log2 d in
  if pow2_le e n d then e else e - 1.

(** The integer nearest to [n / d], the even one of two nearest. *)
Definition round_half_even (n d : Z) : Z :=
  let m := n / d in
  let r := n mod d in
  if (2 * r <? d)%Z then m
  else if (d <? 2 * r)%Z then m + 1
  else if Z.even m then m else m + 1.

(** The fraction [(n / d) / 2^e], and the float [m * 2^e]. *)
Definition scaled (e n d : Z) : Z * Z :=
  if (0 <=? e)%Z then (n, d * 2 ^ e) else (n * 2 ^ (- e), d).

Definition ldexp (m e : Z) : Q :=
  if (0 <=? e)%Z then inject_Z (m * 2 ^ e) else m # Z.to_pos (2 ^ (- e)).

(** [n / d] on 53 bits: its 53-bit significand at the exponent of its last
    place. *)
Definition round53_pos (n d : Z) : Q :=
  let e := ilog2 n d - 52 in
  ldexp (round_half_even (fst (scaled e n d)) (snd (scaled e n d))) e.

Definition round53 (q : Q) : Q :=
  match Qnum q with
  | Z0 => 0%Q
  | Zpos n => round53_pos (Zpos n) (Zpos (Qden q))
  | Zneg n => (- round53_pos (Zpos n) (Zpos (Qden q)))%Q
  end.

(** ** Lines 13-14: the derived rates *)

Section Rates.
Context {fl : Binary64}.

(** [np.where(data['Confirmed'] > 0, (num / data['Confirmed']) * 100, 0)],
    at one row: the two int64 cells are converted, divided, and the quotient
    is multiplied by 100. *)
Definition rate (num den : Z) : Q :=
  if (den >? 0)%Z then fmul (fdiv (of_int num) (of_int den)) 100 else 0%Q.

Definition add_rates (r : raw_record) : row :=
  mkRow (raw_Country r) (raw_WHO_Region r)
        (raw_Confirmed r) (raw_Deaths r) (raw_Recovered r) (raw_Active r)
        (raw_New_cases r) (raw_New_deaths r) (raw_New_recovered r)
        (rate (raw_Deaths r) (raw_Confirmed r))
        (rate (raw_Recovered r) (raw_Confirmed r)).

(** The frame [data] as line 16 sees it. *)
Definition clean (raw : list raw_record) : table := map add_rates raw.

End Rates.

(** ** Generic list operations of pandas and Python *)

Section ListOps.
Context {A : Type}.
Variable eqb : A -> A -> bool.
Variable leb : A -> A -> bool.

(** [Series.unique()]: the distinct values, in order of first appearance. *)
Fixpoint unique_from (seen l : list A) : list A :=
  match l with
  | [] => []
  | x :: l' =>
      if existsb (eqb x) seen then unique_from seen l'
      else x :: unique_from (x :: seen) l'
  end.

Definition unique (l : list A) : list A := unique_from [] l.

(** [Series.nunique()]. *)
Definition nunique (l : list A) : nat := List.length (unique l).

(** A stable sort: [sorted(...)], and the key order of [groupby]. *)
Fixpoint insert (x : A) (l : list A) : list A :=
  match l with
  | [] => [x]
  | y :: l' => if leb x y then x :: l else y :: insert x l'
  end.

Fixpoint sorted (l : list A) : list A :=
  match l with
  | [] => []
  | x :: l' => insert x (sorted l')
  end.
End ListOps.

(** ** Lines 16-26: [groupby([...]).agg({...}).reset_index()] *)

Definition key : Type := (string * string)%type.

Definition key_of (r : row) : key := (Country r, WHO_Region r).

Definition key_eqb (k1 k2 : key) : bool :=
  String.eqb (fst k1) (fst k2) && String.eqb (snd k1) (snd k2).

(** Tuples compare lexicographically. *)
Definition key_leb (k1 k2 : key) : bool :=
  match String.compare (fst k1) (fst k2) with
  | Lt => true
  | Eq => String.leb (snd k1) (snd k2)
  | Gt => false
  end.

(** The group keys: distinct, and sorted ([sort=True] is the default). *)
Definition group_keys (data : table) : list key :=
  sorted key_leb (unique key_eqb (map key_of data)).

(** The rows of one group. *)
Definition group (data : table) (k : key) : table :=
  filter (fun r => key_eqb (key_of r) k) data.

(** ['sum'] on an int64 column. *)
Definition sum_col (f : row -> Z) (rows : table) : Z :=
  fold_left add64 (map f rows) 0.

(** ['mean'] on a float64 column: pandas' reducer, given the cells of a
    group in table order. *)
Class GroupMean : Type := { float_mean : list Q -> Q }.

Section Aggregation.
Context {fl : Binary64} {gm : GroupMean}.

Definition agg (k : key) (rows : table) : row :=
  mkRow (fst k) (snd k)
        (sum_col Confirmed rows) (sum_col Deaths rows)
        (sum_col Recovered rows) (sum_col Active rows)
        (sum_col New_cases rows) (sum_col New_deaths rows)
        (sum_col New_recovered rows)
        (float_mean (map CFR rows)) (float_mean (map RecoveryRate rows)).

Definition groupby_agg (data : table) : table :=
  map (fun k => agg k (group data k)) (group_keys data).

(** [grouped_data], from the raw records. *)
Definition grouped_data (raw : list raw_record) : table :=
  groupby_agg (clean raw).

End Aggregation.

(** ** Line 29: the dropdown's country options *)

Record dd_option : Type := mkOption {
  label : string;
  value : string
}.

Definition country_options (grouped : table) : list dd_option :=
  map (fun c => mkOption c c)
      (sorted String.leb (unique String.eqb (map Country grouped))).

(** ** Figures *)

(** A call of [plotly.express]: the frame it is given, the columns it
    encodes and its title.  The figure the call returns is identified with
    the call. *)
Inductive figure : Type :=
| px_line (data_frame : table) (x : string) (y : list string)
          (title : string) (markers : bool)
| px_scatter (data_frame : table) (x y : string)
             (color facet_col : option string) (facet_col_wrap : nat)
             (title : string)
| px_bar (data_frame : table) (x y : string) (orientation : string)
         (color : string) (title : string)
| px_box (data_frame : table) (x y : string) (title : string)
| px_area (x y : list Q) (title : string).

(** The frame a figure plots (none for an area chart, which is given two
    arrays). *)
Definition plotted (f : figure) : table :=
  match f with
  | px_line d _ _ _ _ => d
  | px_scatter d _ _ _ _ _ _ => d
  | px_bar d _ _ _ _ _ => d
  | px_box d _ _ _ => d
  | px_area _ _ _ => []
  end.

(** Which calls [plotly.express] refuses, and with what exception. *)
Class Plotly : Type := { px_error : figure -> option exn }.

Definition px_build {px : Plotly} (call : figure) : result figure :=
  match px_error call with
  | Some e => Raise e
  | None => Ok call
  end.

(** ** Lines 32-58: five builders over the filtered frame *)

(** [DataFrame.nlargest(n, col)] with the default [keep='first']: the first
    [n] rows in descending order of [col], ties in index order. *)
Definition nlargest {K : Type} (kleb : K -> K -> bool) (n : nat)
           (col : row -> K) (data : table) : table :=
  firstn n (sorted (fun a b => kleb (col b) (col a)) data).

Definition line_rows (data : table) : table :=
  if Nat.eqb (nunique String.eqb (map Country data)) 1
  then data else nlargest Z.leb 5 Deaths data.

Definition bar_rows (data : table) : table :=
  if Nat.eqb (nunique String.eqb (map Country data)) 1
  then data else nlargest Qle_bool 10 RecoveryRate data.

Section Builders.
Context {px : Plotly}.

Definition create_line_chart (data : table) : result figure :=
  let top_data := line_rows data in
  px_build (px_line top_data "Country/Region" ["Deaths"; "Confirmed"]
                    "Top 5 Countries: Deaths and Confirmed Cases" true).

Definition create_scatter_plot (data : table) : result figure :=
  px_build (px_scatter data "Confirmed" "Deaths" (Some "WHO Region") None 0
                       "Confirmed vs Deaths with WHO Region Colors").

Definition create_bar_chart (data : table) : result figure :=
  let top_data := bar_rows data in
  px_build (px_bar top_data "RecoveryRate" "Country/Region" "h" "RecoveryRate"
                   "Top 10 Countries by Recovery Rate").

Definition create_box_plot (data : table) : result figure :=
  px_build (px_box data "WHO Region" "Deaths"
                   "Deaths Distribution by WHO Region").

Definition create_faceted_plot (data : table) : result figure :=
  px_build (px_scatter data "New cases" "New deaths" None (Some "WHO Region")
                       3 "New Cases vs New Deaths by WHO Region").
End Builders.

(** ** Lines 60-74: the density plot *)

Definition bind_result {A B : Type} (m : result A) (k : A -> result B)
  : result B :=
  match m with
  | Ok a => k a
  | Raise e => Raise e
  end.

Notation "'let*' x ':=' m 'in' k" := (bind_result m (fun x => k))
  (at level 10, x name, m at level 100, k at level 200).

(** [Series.dropna()]: a rate of this model is never NaN, so nothing is
    dropped. *)
Definition dropna (s : list Q) : list Q := s.

Definition Qmin2 (a b : Q) : Q := if Qle_bool a b then a else b.
Definition Qmax2 (a b : Q) : Q := if Qle_bool a b then b else a.

(** [ndarray.min()] and [ndarray.max()]: [ValueError] on an empty array. *)
Definition array_min (v : list Q) : result Q :=
  match v with
  | [] => Raise ValueError
  | a :: v' => Ok (fold_left Qmin2 v' a)
  end.

Definition array_max (v : list Q) : result Q :=
  match v with
  | [] => Raise ValueError
  | a :: v' => Ok (fold_left Qmax2 v' a)
  end.

(** [np.linspace(start, stop, num)], endpoint included. *)
Definition linspace (start stop : Q) (num : nat) : list Q :=
  let step := ((stop - start) / inject_Z (Z.of_nat (num - 1)))%Q in
  map (fun i => (start + inject_Z (Z.of_nat i) * step)%Q) (seq 0 num).

Definition insufficient_data : figure :=
  px_area [] [] "Distribution of Case Fatality Rates (Insufficient Data)".

Definition is_insufficient_data (r : result figure) : bool :=
  match r with
  | Ok (px_area [] [] t) =>
      String.eqb t "Distribution of Case Fatality Rates (Insufficient Data)"
  | _ => false
  end.

Section Density.
Context {px : Plotly}.
(** [scipy.stats.gaussian_kde]: the estimator built from a sample, or the
    exception its constructor raises. *)
Variable gaussian_kde : list Q -> result (Q -> Q).

Definition create_density_plot (data : table) : result figure :=
  let cfr_vals := dropna (map CFR data) in
  if Nat.ltb 1 (List.length cfr_vals) then
    let* kde := gaussian_kde cfr_vals in
    let* lo := array_min cfr_vals in
    let* hi := array_max cfr_vals in
    let x_range := linspace lo hi 200 in
    let y_density := map kde x_range in
    px_build (px_area x_range y_density
                      "Distribution of Case Fatality Rates (Density Plot)")
  else
    px_build insufficient_data.
End Density.

(** ** Lines 79-122: the layout's two controls *)

(** A Python dict with integer keys, in insertion order; assigning to a key
    that is present replaces its value in place. *)
Definition dict : Type := list (Z * string).

Fixpoint dict_set (k : Z) (v : string) (d : dict) : dict :=
  match d with
  | [] => [(k, v)]
  | (k', v') :: d' =>
      if (k =? k')%Z then (k, v) :: d' else (k', v') :: dict_set k v d'
  end.

Fixpoint dict_get (k : Z) (d : dict) : option string :=
  match d with
  | [] => None
  | (k', v') :: d' => if (k =? k')%Z then Some v' else dict_get k d'
  end.

(** A dict display [{k1: v1, ..., kn: vn}]: the items are set left to right. *)
Definition dict_display (items : list (Z * string)) : dict :=
  fold_left (fun d kv => dict_set (fst kv) (snd kv) d) items [].

(** [int(grouped_data['Deaths'].max())]: the maximum of an empty column is
    NaN, which [int] refuses. *)
Definition int_max (col : list Z) : result Z :=
  match col with
  | [] => Raise ValueError
  | a :: col' => Ok (fold_left Z.max col' a)
  end.

(** [f"{n}"] for an integer. *)
Definition str (n : Z) : string := NilZero.string_of_int (Z.to_int n).

Record Dropdown : Type := mkDropdown {
  dd_id : string;
  dd_options : list dd_option;
  dd_value : string;
  dd_clearable : bool;
  (** [multi] is not passed: the component's default is a single selection. *)
  dd_multi : bool
}.

Record RangeSlider : Type := mkRangeSlider {
  rs_id : string;
  rs_min : Z;
  rs_max : Z;
  rs_step : Z;
  rs_value : list Z;
  rs_marks : dict
}.

Record Layout : Type := mkLayout {
  heading : string;
  dropdown : Dropdown;
  slider : RangeSlider;
  graphs : list string
}.

Definition app_layout (grouped : table) : result Layout :=
  let* max_deaths := int_max (map Deaths grouped) in
  Ok (mkLayout
        "COVID-19 Dashboard"
        (mkDropdown "country-dropdown"
                    (mkOption "All" "all" :: country_options grouped)
                    "all" false false)
        (mkRangeSlider "death-range-slider" 0 max_deaths 1000
                       [0; max_deaths]
                       (dict_display [(0, "0"); (10000, "10K");
                                      (50000, "50K"); (100000, "100K+");
                                      (max_deaths, (str max_deaths ++ "+")%string)]))
        ["line-chart"; "scatter-plot"; "bar-chart"; "box-plot";
         "faceted-plot"; "density-plot"]).

(** ** Lines 135-153: the callback *)

(** Lines 138-144 by value: the rows of the frame the builders are given. *)
Definition filter_engine (grouped : table) (selected_country : string)
           (death_range : Z * Z) : table :=
  let '(min_deaths, max_deaths) := death_range in
  let filtered :=
    filter (fun r => (min_deaths <=? Deaths r)%Z
                     && (Deaths r <=? max_deaths)%Z)
           grouped in
  if negb (String.eqb selected_country "all")
  then filter (fun r => String.eqb (Country r) selected_country) filtered
  else filtered.

Definition figures : Type :=
  (figure * figure * figure * figure * figure * figure)%type.

(** The objects of the process: every [DataFrame] lives in a store, and a
    Python variable holds a reference into it. *)
Definition ref : Type := nat.
Definition store : Type := list table.

(** A computation over the store that may raise. *)
Definition M (A : Type) : Type := store -> result A * store.

Definition ret {A : Type} (a : A) : M A := fun s => (Ok a, s).

Definition bind {A B : Type} (m : M A) (k : A -> M B) : M B :=
  fun s =>
    match m s with
    | (Ok a, s') => k a s'
    | (Raise e, s') => (Raise e, s')
    end.

Notation "x <- m ;; k" := (bind m (fun x => k))
  (at level 61, m at next level, right associativity).

Definition lift {A : Type} (r : result A) : M A := fun s => (r, s).

(** Reading through a reference. *)
Definition load (p : ref) : M table :=
  fun s =>
    match nth_error s p with
    | Some t => (Ok t, s)
    | None => (Raise KeyError, s)
    end.

(** A new [DataFrame] object. *)
Definition new_frame (t : table) : M ref :=
  fun s => (Ok (List.length s), s ++ [t]).

(** [df[mask]]: boolean indexing builds a new frame from the selected rows. *)
Definition getitem_mask (df : ref) (mask : row -> bool) : M ref :=
  t <- load df ;;
  new_frame (filter mask t).

(** The module-level variable [grouped_data]. *)
Definition grouped_data_ref : ref := 0%nat.

Section Callback.
Context {px : Plotly}.
Variable gaussian_kde : list Q -> result (Q -> Q).

(** Lines 146-153: the six builders in turn; the first exception ends the
    callback. *)
Definition build_charts (filtered : table) : result figures :=
  let* line_fig := create_line_chart filtered in
  let* scatter_fig := create_scatter_plot filtered in
  let* bar_fig := create_bar_chart filtered in
  let* box_fig := create_box_plot filtered in
  let* faceted_fig := create_faceted_plot filtered in
  let* density_fig := create_density_plot gaussian_kde filtered in
  Ok (line_fig, scatter_fig, bar_fig, box_fig, faceted_fig, density_fig).

(** Lines 138-144 by reference. *)
Definition filter_frames (selected_country : string) (death_range : Z * Z)
  : M ref :=
  let '(min_deaths, max_deaths) := death_range in
  filtered <- getitem_mask grouped_data_ref
                (fun r => (min_deaths <=? Deaths r)%Z
                          && (Deaths r <=? max_deaths)%Z) ;;
  if negb (String.eqb selected_country "all")
  then getitem_mask filtered
         (fun r => String.eqb (Country r) selected_country)
  else ret filtered.

Definition update_charts (selected_country : string) (death_range : Z * Z)
  : M figures :=
  filtered <- filter_frames selected_country death_range ;;
  data <- load filtered ;;
  lift (build_charts data).
End Callback.


(** ** Specification-side vocabulary *)

(** The rows of a table that carry a given (Country/Region, WHO Region)
    pair, and the exact sum of a column over them. *)
Definition shares_pair (c w : string) (r : row) : bool :=
  String.eqb (Country r) c && String.eqb (WHO_Region r) w.

Fixpoint sum_where (p : row -> bool) (f : row -> Z) (data : table) : Z :=
  match data with
  | [] => 0
  | r :: data' =>
      if p r then f r + sum_where p f data' else sum_where p f data'
  end.

(** The table has exactly one distinct country. *)
Definition one_distinct_country (data : table) : Prop :=
  exists c, In c (map Country data) /\ forall r, In r data -> Country r = c.

(** [top] is a selection of at most [n] rows of [data] by descending [col]:
    it is in descending order, it has [n] rows unless [data] has fewer, and
    no row left out has a larger [col] than a row taken. *)
Definition top_by {K : Type} (le : K -> K -> Prop) (col : row -> K)
           (n : nat) (top data : table) : Prop :=
  List.length top = Nat.min n (List.length data)
  /\ StronglySorted (fun a b => le (col b) (col a)) top
  /\ exists rest,
       Permutation (top ++ rest) data
       /\ Forall (fun a => Forall (fun b => le (col b) (col a)) rest) top.

(** A call that is given no row and no point. *)
Definition no_data (call : figure) : Prop :=
  match call with
  | px_area x y _ => x = [] /\ y = []
  | _ => plotted call = []
  end.

(** Six figures for an empty filtered frame: the five frame-based ones plot
    no row, and the density figure is the placeholder. *)
Definition empty_or_placeholder (figs : figures) : Prop :=
  let '(line_fig, scatter_fig, bar_fig, box_fig, faceted_fig, density_fig) :=
    figs in
  plotted line_fig = [] /\ plotted scatter_fig = [] /\ plotted bar_fig = []
  /\ plotted box_fig = [] /\ plotted faceted_fig = []
  /\ density_fig = insufficient_data.

(** The strict order of group keys. *)
Definition key_lt (k1 k2 : key) : Prop := key_leb k1 k2 = true /\ k1 <> k2.

(** The rows of a frame with a given value in a column. *)
Definition with_deaths_eq (v : Z) (r : row) : bool := (Deaths r =? v)%Z.
Definition with_rate_eq (v : Q) (r : row) : bool := Qeq_bool (RecoveryRate r) v.

(** ** Sample parameters and inputs *)

(** Exact arithmetic: no rounding, and the rational mean. *)
Definition exact64 : Binary64 := {| rnd := fun q => q |}.

Definition Qsum (l : list Q) : Q := fold_left Qplus l 0%Q.

Definition exact_mean : GroupMean :=
  {| float_mean := fun l => (Qsum l / inject_Z (Z.of_nat (List.length l)))%Q |}.

(** float64 arithmetic. *)
Definition binary64 : Binary64 := {| rnd := round53 |}.

(** A [plotly.express] that builds every figure. *)
Definition tolerant : Plotly := {| px_error := fun _ => None |}.

(** A [plotly.express] that refuses a faceted scatter of 16 or more rows of
    panels (the default row spacing of 0.07 leaves no room for them) and
    builds every other figure. *)
Definition facet_limited : Plotly :=
  {| px_error := fun call =>
       match call with
       | px_scatter d _ _ _ (Some _) wrap _ =>
           let panels := nunique String.eqb (map WHO_Region d) in
           let rows := if Nat.eqb wrap 0 then 1%nat
                       else Nat.div (panels + wrap - 1) wrap in
           if Nat.leb 16 rows then Some ValueError else None
       | _ => None
       end |}.

(** A record with a negative confirmed count.  The comparison of line 13 is
    [> 0], so the masked branch is taken. *)
Definition negative_confirmed : raw_record :=
  mkRaw "X" "Europe" (-1) 1 0 0 0 0 0.

(** Two records whose rates are not float64 numbers. *)
Definition one_in_three : raw_record := mkRaw "Y" "Europe" 3 1 2 0 0 0 0.
Definition seven_percent : raw_record := mkRaw "Z" "Europe" 100 7 93 0 0 0 0.

(** Four raw records over three (country, region) pairs. *)
Definition sample_raw : list raw_record :=
  [ mkRaw "B" "Europe" 100 5 50 45 1 0 0;
    mkRaw "A" "Asia" 200 20 100 80 1 0 0;
    mkRaw "B" "Europe" 0 0 0 0 0 0 0;
    mkRaw "C" "Africa" 50 0 10 40 2 0 1 ].

Definition sample_grouped : table :=
  grouped_data (fl := exact64) (gm := exact_mean) sample_raw.

(** Two records of one pair whose Deaths add up to 2^63. *)
Definition overflow_raw : list raw_record :=
  [ mkRaw "A" "Asia" (2 ^ 62) (2 ^ 62) 0 0 0 0 0;
    mkRaw "A" "Asia" (2 ^ 62) (2 ^ 62) 0 0 0 0 0 ].

(** Two aggregated rows without deaths: both have a CFR of 0. *)
Definition two_zero_cfr : table :=
  [ mkRow "P" "Europe" 10 0 5 5 0 0 0 0 50;
    mkRow "Q" "Asia" 20 0 5 15 0 0 0 0 25 ].

(** A process whose only frame is the sample aggregated table. *)
Definition sample_store : store := [sample_grouped].

(** Two aggregated rows, each with deaths. *)
Definition with_deaths : table :=
  [ mkRow "A" "Asia" 200 20 100 80 1 0 0 10 50;
    mkRow "B" "Europe" 100 5 50 45 1 0 0 5 50 ].

(** An estimator that refuses every sample. *)
Definition refusing_kde : list Q -> result (Q -> Q) :=
  fun _ => Raise LinAlgError.

(** An estimator that accepts every sample: the constant density 1. *)
Definition constant_kde : list Q -> result (Q -> Q) :=
  fun _ => Ok (fun _ => 1%Q).

(** Three aggregated rows, two of them tied on Deaths. *)
Definition tied_deaths : table :=
  [ mkRow "A" "Asia" 200 7 100 80 1 0 0 (7 # 2) 50;
    mkRow "B" "Europe" 100 9 50 45 1 0 0 9 50;
    mkRow "C" "Africa" 70 7 30 33 1 0 0 10 (300 # 7) ].

(** Twelve countries, in no order of Deaths or of RecoveryRate. *)
Definition twelve_countries : table :=
  [ mkRow "A" "Asia" 100 3 40 57 0 0 0 3 40;
    mkRow "B" "Europe" 100 11 20 69 0 0 0 11 20;
    mkRow "C" "Africa" 100 7 90 3 0 0 0 7 90;
    mkRow "D" "Asia" 100 1 60 39 0 0 0 1 60;
    mkRow "E" "Europe" 100 12 10 78 0 0 0 12 10;
    mkRow "F" "Africa" 100 5 80 15 0 0 0 5 80;
    mkRow "G" "Asia" 100 9 30 61 0 0 0 9 30;
    mkRow "H" "Europe" 100 2 70 28 0 0 0 2 70;
    mkRow "I" "Africa" 100 10 50 40 0 0 0 10 50;
    mkRow "J" "Asia" 100 4 95 1 0 0 0 4 95;
    mkRow "K" "Europe" 100 8 15 77 0 0 0 8 15;
    mkRow "L" "Africa" 100 6 85 9 0 0 0 6 85 ].

(** Eleven rows of one country, under eleven regions. *)
Definition one_country_eleven : table :=
  map (fun i => mkRow "A" (str (Z.of_nat i)) 100 (Z.of_nat i) 0 0 0 0 0
                      (inject_Z (Z.of_nat i)) 0)
      (seq 0 11).

(** One aggregated row whose Deaths is 10000. *)
Definition ten_thousand : table :=
  [ mkRow "A" "Asia" 90000 10000 50000 30000 0 0 0 (100 # 9) (500 # 9) ].

(** Forty-six aggregated rows under forty-six regions. *)
Definition forty_six_regions : table :=
  map (fun i => mkRow "A" (str (Z.of_nat i)) 100 1 0 0 0 0 0 1 0) (seq 0 46).

(** * Facts about the list operations *)

Section UniqueFacts.
Context {A : Type}.
Variable eqb : A -> A -> bool.
Hypothesis eqb_eq : forall a b, eqb a b = true <-> a = b.

Lemma existsb_eqb_In (x : A) (seen : list A) :
  existsb (eqb x) seen = true <-> In x seen.
Proof.
  rewrite existsb_exists. split.
  - intros [y [Hy Hxy]]. apply eqb_eq in Hxy. now subst.
  - intros Hx. exists x. split; [assumption | now apply eqb_eq].
Qed.

Lemma unique_from_In (x : A) (l seen : list A) :
  In x (unique_from eqb seen l) <-> In x l /\ ~ In x seen.
Proof.
  revert seen. induction l as [|a l IH]; intros seen; simpl.
  - tauto.
  - destruct (existsb (eqb a) seen) eqn:E.
    + apply existsb_eqb_In in E. rewrite IH. split.
      * intros [H1 H2]. tauto.
      * intros [[->|H1] H2]; tauto.
    + assert (Ha : ~ In a seen).
      { intros H. apply existsb_eqb_In in H. congruence. }
      simpl. rewrite IH. simpl. split.
      * intros [->|[H1 H2]]; [tauto|]. split; [tauto|]. intros H. apply H2. tauto.
      * intros [[->|H1] H2]; [tauto|].
        destruct (existsb (eqb a) [x]) eqn:Ex.
        -- apply existsb_eqb_In in Ex. destruct Ex as [->|[]]. tauto.
        -- right. split; [assumption|]. intros [->|H]; [|tauto].
           simpl in Ex. rewrite (proj2 (eqb_eq x x) eq_refl) in Ex. discriminate.
Qed.

Lemma unique_In (x : A) (l : list A) : In x (unique eqb l) <-> In x l.
Proof. unfold unique. rewrite unique_from_In. simpl. tauto. Qed.

Lemma unique_from_NoDup (l seen : list A) : NoDup (unique_from eqb seen l).
Proof.
  revert seen. induction l as [|a l IH]; intros seen; simpl.
  - constructor.
  - destruct (existsb (eqb a) seen); [apply IH|].
    constructor; [|apply IH].
    rewrite unique_from_In. simpl. tauto.
Qed.

Lemma unique_NoDup (l : list A) : NoDup (unique eqb l).
Proof. apply unique_from_NoDup. Qed.
End UniqueFacts.

Lemma unique_from_length {A : Type} (eqb : A -> A -> bool) (l seen : list A) :
  (List.length (unique_from eqb seen l) <= List.length l)%nat.
Proof.
  revert seen. induction l as [|a l IH]; intros seen; simpl.
  - lia.
  - destruct (existsb (eqb a) seen); simpl.
    + specialize (IH seen). lia.
    + specialize (IH (a :: seen)). lia.
Qed.

Section SortFacts.
Context {A : Type}.
Variable leb : A -> A -> bool.

Local Abbreviation le := (fun a b : A => leb a b = true).

Lemma insert_perm (x : A) (l : list A) : Permutation (insert leb x l) (x :: l).
Proof.
  induction l as [|y l IH]; simpl.
  - apply Permutation_refl.
  - destruct (leb x y).
    + apply Permutation_refl.
    + eapply perm_trans; [apply perm_skip, IH | apply perm_swap].
Qed.

Lemma sorted_perm (l : list A) : Permutation (sorted leb l) l.
Proof.
  induction l as [|x l IH]; simpl.
  - apply perm_nil.
  - eapply perm_trans; [apply insert_perm | apply perm_skip, IH].
Qed.

Lemma sorted_length (l : list A) : List.length (sorted leb l) = List.length l.
Proof. apply Permutation_length, sorted_perm. Qed.

Lemma sorted_In (x : A) (l : list A) : In x (sorted leb l) <-> In x l.
Proof.
  split; apply Permutation_in;
    [apply sorted_perm | apply Permutation_sym, sorted_perm].
Qed.

Hypothesis leb_total : forall a b, leb a b = true \/ leb b a = true.
Hypothesis leb_trans :
  forall a b c, leb a b = true -> leb b c = true -> leb a c = true.

Lemma insert_sorted (x : A) (l : list A) :
  StronglySorted le l -> StronglySorted le (insert leb x l).
Proof.
  induction 1 as [|y l Hl IH Hy]; simpl.
  - constructor; constructor.
  - destruct (leb x y) eqn:E.
    + constructor; [now constructor|].
      constructor; [exact E|].
      eapply Forall_impl; [|exact Hy].
      intros z Hz. simpl in *. eauto.
    + constructor; [exact IH|].
      assert (Hyx : leb y x = true).
      { destruct (leb_total x y) as [H|H]; [congruence | exact H]. }
      eapply Permutation_Forall; [apply Permutation_sym, insert_perm|].
      constructor; assumption.
Qed.

Lemma sorted_sorted (l : list A) : StronglySorted le (sorted leb l).
Proof.
  induction l as [|x l IH]; simpl.
  - constructor.
  - apply insert_sorted, IH.
Qed.
End SortFacts.

(** * The order of strings and of group keys *)

Lemma ascii_compare_refl (a : ascii) : Ascii.compare a a = Eq.
Proof. unfold Ascii.compare. apply N.compare_refl. Qed.

Lemma ascii_compare_lt_trans (a b c : ascii) :
  Ascii.compare a b = Lt -> Ascii.compare b c = Lt -> Ascii.compare a c = Lt.
Proof. unfold Ascii.compare. rewrite !N.compare_lt_iff. apply N.lt_trans. Qed.

Lemma string_compare_refl (a : string) : String.compare a a = Eq.
Proof.
  induction a as [|x a IH]; simpl; [reflexivity|].
  now rewrite ascii_compare_refl.
Qed.

Lemma string_compare_lt_trans (a b c : string) :
  String.compare a b = Lt -> String.compare b c = Lt -> String.compare a c = Lt.
Proof.
  revert b c. induction a as [|x a IH]; intros [|y b] [|z c]; simpl;
    try congruence.
  destruct (Ascii.compare x y) eqn:Exy; try discriminate.
  - apply Ascii.compare_eq_iff in Exy. subst y.
    destruct (Ascii.compare x z); try congruence. apply IH.
  - intros _. destruct (Ascii.compare y z) eqn:Eyz; try discriminate; intros _.
    + apply Ascii.compare_eq_iff in Eyz. subst z. now rewrite Exy.
    + now rewrite (ascii_compare_lt_trans _ _ _ Exy Eyz).
Qed.

Lemma string_leb_cases (a b : string) :
  String.leb a b = true <-> String.compare a b = Lt \/ a = b.
Proof.
  unfold String.leb. split.
  - destruct (String.compare a b) eqn:E; try discriminate; intros _.
    + right. now apply String.compare_eq_iff.
    + now left.
  - intros [->| ->]; [reflexivity|]. now rewrite string_compare_refl.
Qed.

Lemma string_leb_trans (a b c : string) :
  String.leb a b = true -> String.leb b c = true -> String.leb a c = true.
Proof.
  rewrite !string_leb_cases. intros [Hab| ->] [Hbc| ->]; auto.
  left. eapply string_compare_lt_trans; eassumption.
Qed.

Lemma string_ltb_leb_neq (a b : string) :
  String.leb a b = true -> a <> b -> String.ltb a b = true.
Proof.
  rewrite string_leb_cases. unfold String.ltb.
  intros [->|E] Hne; [reflexivity | contradiction].
Qed.

Lemma key_eqb_eq (k1 k2 : key) : key_eqb k1 k2 = true <-> k1 = k2.
Proof.
  destruct k1 as [c1 w1], k2 as [c2 w2]. unfold key_eqb. simpl.
  rewrite andb_true_iff, !String.eqb_eq. split.
  - intros [-> ->]. reflexivity.
  - intros H. inversion H. auto.
Qed.

Lemma key_leb_total (k1 k2 : key) : key_leb k1 k2 = true \/ key_leb k2 k1 = true.
Proof.
  destruct k1 as [c1 w1], k2 as [c2 w2]. unfold key_leb. simpl.
  rewrite (String.compare_antisym c2 c1).
  destruct (String.compare c1 c2); simpl; auto.
  apply String.leb_total.
Qed.

Lemma key_leb_trans (k1 k2 k3 : key) :
  key_leb k1 k2 = true -> key_leb k2 k3 = true -> key_leb k1 k3 = true.
Proof.
  destruct k1 as [c1 w1], k2 as [c2 w2], k3 as [c3 w3]. unfold key_leb. simpl.
  destruct (String.compare c1 c2) eqn:E12; try discriminate;
    destruct (String.compare c2 c3) eqn:E23; try discriminate; intros H1 H2.
  - apply String.compare_eq_iff in E12, E23. subst.
    rewrite string_compare_refl. eapply string_leb_trans; eassumption.
  - apply String.compare_eq_iff in E12. subst. now rewrite E23.
  - apply String.compare_eq_iff in E23. subst. now rewrite E12.
  - now rewrite (string_compare_lt_trans _ _ _ E12 E23).
Qed.

(** * Lines 13-14: the derived rates (C4) *)

(** C4, as stated, fails twice in float64.  The record [negative_confirmed]
    has a confirmed count different from zero, its CFR is 0, and 0 is not
    Deaths / Confirmed * 100 = -100.  The record [one_in_three] has a positive
    confirmed count, and its CFR, the float64 33.33333333333333, is not the
    number Deaths / Confirmed * 100 = 100 / 3. *)
Lemma rates_nonzero_confirmed_counterexample :
  (raw_Confirmed negative_confirmed <> 0
   /\ (CFR (add_rates (fl := binary64) negative_confirmed) == 0)%Q
   /\ Qeq_bool (CFR (add_rates (fl := binary64) negative_confirmed))
               (inject_Z (raw_Deaths negative_confirmed)
                / inject_Z (raw_Confirmed negative_confirmed) * 100)%Q = false)
  /\ (0 < raw_Confirmed one_in_three
      /\ CFR (add_rates (fl := binary64) one_in_three)
         = 4691249611844266 # 140737488355328
      /\ Qeq_bool (CFR (add_rates (fl := binary64) one_in_three))
                  (inject_Z (raw_Deaths one_in_three)
                   / inject_Z (raw_Confirmed one_in_three) * 100)%Q = false).
Proof. repeat split. discriminate. Qed.

Section RatesFacts.
Context {fl : Binary64}.

(** C4, amended: for every raw record, CFR and RecoveryRate are 0 when
    Confirmed is not positive (in particular when it is 0); when Confirmed is
    positive, CFR is Deaths / Confirmed * 100 as float64 computes it: the two
    counts are converted to float64, their quotient is rounded to float64, and
    its product by 100 is rounded to float64; RecoveryRate is
    Recovered / Confirmed * 100 computed the same way. *)
Theorem add_rates_spec (r : raw_record) :
  (raw_Confirmed r <= 0 ->
   CFR (add_rates r) = 0%Q /\ RecoveryRate (add_rates r) = 0%Q)
  /\ (0 < raw_Confirmed r ->
      CFR (add_rates r)
      = rnd (rnd (rnd (inject_Z (raw_Deaths r))
                  / rnd (inject_Z (raw_Confirmed r))) * 100)%Q
      /\ RecoveryRate (add_rates r)
         = rnd (rnd (rnd (inject_Z (raw_Recovered r))
                     / rnd (inject_Z (raw_Confirmed r))) * 100)%Q).
Proof.
  unfold add_rates, rate. simpl. split; intros H.
  - destruct (raw_Confirmed r >? 0)%Z eqn:E; [|split; reflexivity].
    apply Z.gtb_lt in E. lia.
  - destruct (raw_Confirmed r >? 0)%Z eqn:E; [split; reflexivity|].
    rewrite Z.gtb_ltb in E. apply Z.ltb_ge in E. lia.
Qed.
End RatesFacts.

(** In float64, Deaths 7 of Confirmed 100 gives the CFR 7.000000000000001,
    and a record without confirmed cases gives 0. *)
Lemma add_rates_spec_witness :
  (0 < raw_Confirmed seven_percent
   /\ CFR (add_rates (fl := binary64) seven_percent)
      = 7881299347898369 # 1125899906842624)
  /\ (raw_Confirmed (mkRaw "B" "Asia" 0 0 0 0 0 0 0) <= 0
      /\ CFR (add_rates (fl := binary64) (mkRaw "B" "Asia" 0 0 0 0 0 0 0))
         = 0%Q).
Proof.
  split.
  - split; [reflexivity|].
    rewrite (proj1 (proj2 (add_rates_spec (fl := binary64) seven_percent)
                          eq_refl)).
    reflexivity.
  - split; [discriminate|].
    apply (proj1 (add_rates_spec (fl := binary64)
                    (mkRaw "B" "Asia" 0 0 0 0 0 0 0))).
    discriminate.
Defined.

(** * Lines 16-26: the aggregation (C5, C7) *)

Lemma fold_left_Zadd (l : list Z) (a : Z) :
  fold_left Z.add l a = a + fold_left Z.add l 0.
Proof.
  revert a. induction l as [|x l IH]; intros a; simpl.
  - lia.
  - rewrite (IH (a + x)), (IH x). lia.
Qed.

Lemma wrap64_add_l (a b : Z) : wrap64 (wrap64 a + b) = wrap64 (a + b).
Proof.
  unfold wrap64. f_equal.
  replace ((a + 2 ^ 63) mod 2 ^ 64 - 2 ^ 63 + b + 2 ^ 63)
    with ((a + 2 ^ 63) mod 2 ^ 64 + b) by lia.
  rewrite Z.add_mod_idemp_l by discriminate. f_equal. lia.
Qed.

Lemma wrap64_add_r (a b : Z) : wrap64 (a + wrap64 b) = wrap64 (a + b).
Proof. rewrite (Z.add_comm a), wrap64_add_l. f_equal. lia. Qed.

Lemma wrap64_idem (a : Z) : wrap64 (wrap64 a) = wrap64 a.
Proof.
  replace (wrap64 a) with (wrap64 a + 0) at 1 by lia.
  rewrite wrap64_add_l. f_equal. lia.
Qed.

Lemma wrap64_id (z : Z) : in_int64 z -> wrap64 z = z.
Proof.
  unfold in_int64, wrap64. intros H.
  rewrite Z.mod_small by lia. lia.
Qed.

Lemma wrap64_in_int64 (z : Z) : in_int64 (wrap64 z).
Proof.
  unfold in_int64, wrap64.
  pose proof (Z.mod_pos_bound (z + 2 ^ 63) (2 ^ 64) eq_refl). lia.
Qed.

Lemma fold_left_add64 (l : list Z) (a : Z) :
  wrap64 (fold_left add64 l a) = wrap64 (a + fold_left Z.add l 0).
Proof.
  revert a. induction l as [|x l IH]; intros a; simpl.
  - f_equal. lia.
  - rewrite IH. unfold add64. rewrite wrap64_add_l.
    rewrite (fold_left_Zadd l x). f_equal. lia.
Qed.

Lemma fold_left_add64_in_int64 (l : list Z) (a : Z) :
  in_int64 a -> in_int64 (fold_left add64 l a).
Proof.
  revert a. induction l as [|x l IH]; intros a Ha; simpl; [exact Ha|].
  apply IH, wrap64_in_int64.
Qed.

(** An int64 sum is the exact sum, wrapped once. *)
Lemma sum_col_wrap (f : row -> Z) (rows : table) :
  sum_col f rows = wrap64 (fold_left Z.add (map f rows) 0).
Proof.
  unfold sum_col.
  rewrite <- (wrap64_id (fold_left add64 (map f rows) 0)).
  - rewrite fold_left_add64. reflexivity.
  - apply fold_left_add64_in_int64. unfold in_int64. lia.
Qed.

Lemma Zsum_filter (p : row -> bool) (f : row -> Z) (data : table) :
  fold_left Z.add (map f (filter p data)) 0 = sum_where p f data.
Proof.
  induction data as [|r data IH]; simpl; [reflexivity|].
  destruct (p r); simpl; [|exact IH].
  rewrite fold_left_Zadd, IH. reflexivity.
Qed.

Lemma sum_col_filter (p : row -> bool) (f : row -> Z) (data : table) :
  sum_col f (filter p data) = wrap64 (sum_where p f data).
Proof. now rewrite sum_col_wrap, Zsum_filter. Qed.

Lemma group_keys_In (data : table) (k : key) :
  In k (group_keys data) <-> In k (map key_of data).
Proof.
  unfold group_keys. rewrite sorted_In. apply unique_In, key_eqb_eq.
Qed.

Lemma group_keys_NoDup (data : table) : NoDup (group_keys data).
Proof.
  unfold group_keys.
  eapply Permutation_NoDup; [apply Permutation_sym, sorted_perm|].
  apply unique_NoDup, key_eqb_eq.
Qed.

(** C5, as stated, fails on the sums: the two records of [overflow_raw]
    share one pair and their Deaths add up to 2^63, and the aggregated record
    of the pair has Deaths -2^63. *)
Lemma groupby_agg_sum_counterexample :
  map key_of (groupby_agg (gm := exact_mean)
                          (clean (fl := binary64) overflow_raw))
  = [("A", "Asia")]
  /\ map Deaths (groupby_agg (gm := exact_mean)
                             (clean (fl := binary64) overflow_raw))
     = [- 2 ^ 63]
  /\ sum_where (shares_pair "A" "Asia") Deaths
               (clean (fl := binary64) overflow_raw)
     = 2 ^ 63.
Proof. repeat split. Qed.

Section AggregationFacts.
Context {fl : Binary64} {gm : GroupMean}.

Lemma groupby_agg_keys (data : table) :
  map key_of (groupby_agg data) = group_keys data.
Proof.
  unfold groupby_agg. rewrite map_map.
  rewrite <- (map_id (group_keys data)) at 2.
  apply map_ext. intros [c w]. reflexivity.
Qed.

(** C5, amended: for every table and every (Country/Region, WHO Region)
    pair present in it, the aggregated table holds a record for that pair, it
    is the only one, and no pair occurs twice.  Each of its seven count columns
    is the int64 sum of that column over the rows sharing the pair: the exact
    sum wrapped into [-2^63, 2^63), so the exact sum whenever that is an int64.
    Its CFR and RecoveryRate are what pandas' float64 mean returns for the
    cells of those columns in the same rows, taken in table order. *)
Theorem groupby_agg_spec (data : table) (c w : string) :
  (exists r, In r data /\ Country r = c /\ WHO_Region r = w) ->
  NoDup (map key_of (groupby_agg data))
  /\ exists g,
      In g (groupby_agg data) /\ Country g = c /\ WHO_Region g = w
      /\ (forall g', In g' (groupby_agg data) ->
                     Country g' = c -> WHO_Region g' = w -> g' = g)
      /\ Confirmed g = wrap64 (sum_where (shares_pair c w) Confirmed data)
      /\ Deaths g = wrap64 (sum_where (shares_pair c w) Deaths data)
      /\ Recovered g = wrap64 (sum_where (shares_pair c w) Recovered data)
      /\ Active g = wrap64 (sum_where (shares_pair c w) Active data)
      /\ New_cases g = wrap64 (sum_where (shares_pair c w) New_cases data)
      /\ New_deaths g = wrap64 (sum_where (shares_pair c w) New_deaths data)
      /\ New_recovered g
         = wrap64 (sum_where (shares_pair c w) New_recovered data)
      /\ (forall col : row -> Z,
             In col [Confirmed; Deaths; Recovered; Active; New_cases;
                     New_deaths; New_recovered] ->
             in_int64 (sum_where (shares_pair c w) col data) ->
             col g = sum_where (shares_pair c w) col data)
      /\ CFR g = float_mean (map CFR (filter (shares_pair c w) data))
      /\ RecoveryRate g
         = float_mean (map RecoveryRate (filter (shares_pair c w) data)).
Proof.
  intros [r [Hr [Hc Hw]]]. split.
  { rewrite groupby_agg_keys. apply group_keys_NoDup. }
  assert (Hk : In (c, w) (group_keys data)).
  { apply group_keys_In. apply in_map_iff. exists r. split; [|exact Hr].
    unfold key_of. now rewrite Hc, Hw. }
  exists (agg (c, w) (group data (c, w))).
  split.
  { unfold groupby_agg. apply in_map_iff. exists (c, w). now split. }
  split; [reflexivity|]. split; [reflexivity|]. split.
  { intros g' Hg' Hc' Hw'. unfold groupby_agg in Hg'.
    apply in_map_iff in Hg'. destruct Hg' as [[c' w'] [Heq _]].
    subst g'. simpl in Hc', Hw'. now subst. }
  change (group data (c, w)) with (filter (shares_pair c w) data).
  simpl. rewrite !sum_col_filter.
  do 7 (split; [reflexivity|]). split; [|split; reflexivity].
  intros col Hcol Hfit.
  repeat (destruct Hcol as [<-|Hcol];
          [simpl; rewrite sum_col_filter; now apply wrap64_id|]).
  destruct Hcol.
Qed.

(** C7: the aggregated table has at most as many rows as the table it is
    computed from. *)
Theorem groupby_agg_length (data : table) :
  (List.length (groupby_agg data) <= List.length data)%nat.
Proof.
  unfold groupby_agg, group_keys.
  rewrite length_map, sorted_length.
  unfold unique.
  etransitivity; [apply unique_from_length|].
  rewrite length_map. reflexivity.
Qed.
End AggregationFacts.

Lemma groupby_agg_spec_witness :
  exists g,
    In g (groupby_agg (gm := exact_mean) (clean (fl := binary64) sample_raw))
    /\ Country g = "B" /\ WHO_Region g = "Europe"
    /\ Deaths g = 5 /\ (CFR g == 5 # 2)%Q.
Proof.
  destruct (groupby_agg_spec (gm := exact_mean)
              (clean (fl := binary64) sample_raw) "B" "Europe")
    as [_ [g H]].
  - exists (add_rates (fl := binary64) (mkRaw "B" "Europe" 100 5 50 45 1 0 0)).
    split; [left; reflexivity | split; reflexivity].
  - exists g.
    destruct H as (Hin & Hc & Hw & _ & _ & Hd & _ & _ & _ & _ & _ & _ & Hcfr & _).
    repeat split; try assumption. rewrite Hcfr. reflexivity.
Defined.

(** * Line 29 and lines 79-122: the two controls (C9, C10) *)

Lemma country_options_values (grouped : table) :
  map value (country_options grouped)
  = sorted String.leb (unique String.eqb (map Country grouped)).
Proof.
  unfold country_options. rewrite map_map. simpl. apply map_id.
Qed.

Lemma country_options_In (grouped : table) (c : string) :
  In (mkOption c c) (country_options grouped) <-> In c (map Country grouped).
Proof.
  unfold country_options. rewrite in_map_iff. split.
  - intros [c' [Heq Hin]]. inversion Heq. subst c'.
    rewrite sorted_In in Hin.
    exact (proj1 (unique_In _ String.eqb_eq _ _) Hin).
  - intros Hin. exists c. split; [reflexivity|].
    rewrite sorted_In.
    exact (proj2 (unique_In _ String.eqb_eq _ _) Hin).
Qed.

Lemma strictly_sorted (l : list string) :
  StronglySorted (fun a b => String.leb a b = true) l ->
  NoDup l ->
  StronglySorted (fun a b => String.ltb a b = true) l.
Proof.
  induction 1 as [|a l Hl IH Ha]; intros Hnd.
  - constructor.
  - inversion Hnd as [|? ? Hnotin Hnd']. subst.
    constructor; [now apply IH|].
    rewrite Forall_forall in *. intros b Hb.
    apply string_ltb_leb_neq; [now apply Ha|].
    intros ->. contradiction.
Qed.

(** C10: the values of the country options are in strictly ascending
    lexicographic order (so none is repeated), they are exactly the countries of
    the aggregated table, each option is labelled by its value, and in the
    layout they follow the leading "All" entry. *)
Theorem country_options_sorted_distinct (grouped : table) :
  StronglySorted (fun a b => String.ltb a b = true)
                 (map value (country_options grouped))
  /\ NoDup (map value (country_options grouped))
  /\ (forall c, In c (map value (country_options grouped))
                <-> exists r, In r grouped /\ Country r = c)
  /\ Forall (fun o => label o = value o) (country_options grouped)
  /\ match app_layout grouped with
     | Ok L => dd_options (dropdown L)
               = mkOption "All" "all" :: country_options grouped
     | Raise _ => grouped = []
     end.
Proof.
  assert (Hnd : NoDup (map value (country_options grouped))).
  { rewrite country_options_values.
    eapply Permutation_NoDup; [apply Permutation_sym, sorted_perm|].
    apply unique_NoDup, String.eqb_eq. }
  split; [|split; [exact Hnd|split; [|split]]].
  - apply strictly_sorted; [|exact Hnd].
    rewrite country_options_values.
    apply sorted_sorted; [apply String.leb_total | apply string_leb_trans].
  - intros c. rewrite country_options_values, sorted_In.
    rewrite (unique_In _ String.eqb_eq), in_map_iff.
    split; intros [r [H1 H2]]; exists r; tauto.
  - unfold country_options. apply Forall_forall. intros o Ho.
    apply in_map_iff in Ho. destruct Ho as [c [<- _]]. reflexivity.
  - unfold app_layout. destruct grouped as [|r t]; simpl; reflexivity.
Qed.

Lemma country_options_sorted_distinct_witness :
  map value (country_options sample_grouped) = ["A"; "B"; "C"]
  /\ StronglySorted (fun a b => String.ltb a b = true)
                    (map value (country_options sample_grouped)).
Proof.
  split; [reflexivity|].
  exact (proj1 (country_options_sorted_distinct sample_grouped)).
Defined.

Lemma fold_left_Zmax_ge (l : list Z) (a : Z) :
  a <= fold_left Z.max l a /\ Forall (fun d => d <= fold_left Z.max l a) l.
Proof.
  revert a. induction l as [|x l IH]; intros a; simpl.
  - split; [lia | constructor].
  - destruct (IH (Z.max a x)) as [H1 H2]. split; [lia|].
    constructor; [lia | exact H2].
Qed.

Lemma fold_left_Zmax_In (l : list Z) (a : Z) :
  In (fold_left Z.max l a) (a :: l).
Proof.
  revert a. induction l as [|x l IH]; intros a; simpl.
  - now left.
  - destruct (IH (Z.max a x)) as [H|H].
    + destruct (Z.max_spec a x) as [[_ E]|[_ E]]; rewrite E in *;
        simpl; tauto.
    + simpl. tauto.
Qed.

Lemma int_max_spec (col : list Z) (m : Z) :
  int_max col = Ok m -> In m col /\ Forall (fun d => d <= m) col.
Proof.
  destruct col as [|a l]; simpl; [discriminate|].
  intros H. injection H as <-. split.
  - apply fold_left_Zmax_In.
  - destruct (fold_left_Zmax_ge l a) as [Ha Hl]. now constructor.
Qed.

Lemma marks_spec (m : Z) (v : string) :
  let marks := dict_display [(0, "0"); (10000, "10K"); (50000, "50K");
                             (100000, "100K+"); (m, v)] in
  (forall k, In k (map fst marks)
             <-> k = 0 \/ k = 10000 \/ k = 50000 \/ k = 100000 \/ k = m)
  /\ dict_get m marks = Some v
  /\ (m <> 0 -> dict_get 0 marks = Some "0")
  /\ (m <> 10000 -> dict_get 10000 marks = Some "10K")
  /\ (m <> 50000 -> dict_get 50000 marks = Some "50K")
  /\ (m <> 100000 -> dict_get 100000 marks = Some "100K+").
Proof.
  unfold dict_display. cbn [fold_left fst snd dict_set Z.eqb Pos.eqb].
  destruct (Z.eqb_spec m 0) as [->|E0]; [cbn; intuition (lia || congruence)|].
  destruct (Z.eqb_spec m 10000) as [->|E1];
    [cbn; intuition (lia || congruence)|].
  destruct (Z.eqb_spec m 50000) as [->|E2];
    [cbn; intuition (lia || congruence)|].
  destruct (Z.eqb_spec m 100000) as [->|E3];
    [cbn; intuition (lia || congruence)|].
  cbn [map fst dict_get In Z.eqb Pos.eqb].
  apply Z.eqb_neq in E0, E1, E2, E3. rewrite E0, E1, E2, E3, Z.eqb_refl.
  intuition (lia || congruence).
Qed.


(** C9, as stated, fails twice.  For the empty aggregated table no layout is
    declared: the maximum of the empty Deaths column cannot be made an integer.
    For a table whose largest Deaths is 10000 the mark at 10000 is labelled
    "10000+", and no mark is labelled "10K". *)
Lemma app_layout_marks_counterexample :
  app_layout [] = Raise ValueError
  /\ exists L,
       app_layout ten_thousand = Ok L
       /\ rs_max (slider L) = 10000
       /\ dict_get 10000 (rs_marks (slider L)) = Some "10000+"
       /\ existsb (fun kv => String.eqb (snd kv) "10K") (rs_marks (slider L))
          = false.
Proof.
  split; [reflexivity|]. eexists. split; [reflexivity|].
  repeat split.
Qed.

(** C9, amended: for every non-empty aggregated table the layout is
    declared, with [m] the largest Deaths value of the table.  Its dropdown is
    a single-select one whose options are "All" followed by the country
    options; these are, once each, the countries of the table, each labelled by
    itself; the default is "all".  Its slider ranges over [0, m] with step 1000
    and default value [0, m]; its marks sit at 0, 10000, 50000, 100000 and [m]
    and nowhere else; the mark at [m] is labelled [m] followed by "+", and the
    marks at 0, 10000, 50000 and 100000 are labelled "0", "10K", "50K" and
    "100K+" unless [m] is that position. *)
Theorem app_layout_spec (grouped : table) :
  grouped <> [] ->
  exists (L : Layout) (m : Z),
    app_layout grouped = Ok L
    /\ In m (map Deaths grouped)
    /\ Forall (fun r => Deaths r <= m) grouped
    /\ dd_options (dropdown L) = mkOption "All" "all" :: country_options grouped
    /\ NoDup (map value (country_options grouped))
    /\ (forall o, In o (country_options grouped)
                  <-> exists r, In r grouped
                                /\ o = mkOption (Country r) (Country r))
    /\ dd_value (dropdown L) = "all"
    /\ dd_multi (dropdown L) = false
    /\ rs_min (slider L) = 0
    /\ rs_max (slider L) = m
    /\ rs_step (slider L) = 1000
    /\ rs_value (slider L) = [0; m]
    /\ (forall k, In k (map fst (rs_marks (slider L)))
                  <-> k = 0 \/ k = 10000 \/ k = 50000 \/ k = 100000 \/ k = m)
    /\ dict_get m (rs_marks (slider L)) = Some (str m ++ "+")%string
    /\ (m <> 0 -> dict_get 0 (rs_marks (slider L)) = Some "0")
    /\ (m <> 10000 -> dict_get 10000 (rs_marks (slider L)) = Some "10K")
    /\ (m <> 50000 -> dict_get 50000 (rs_marks (slider L)) = Some "50K")
    /\ (m <> 100000 -> dict_get 100000 (rs_marks (slider L)) = Some "100K+").
Proof.
  intros Hne. unfold app_layout.
  destruct (int_max (map Deaths grouped)) as [m|e] eqn:Hmax.
  2:{ destruct grouped; [contradiction | discriminate]. }
  apply int_max_spec in Hmax. destruct Hmax as [Hin Hall].
  simpl. eexists. exists m. split; [reflexivity|]. simpl.
  split; [exact Hin|]. split.
  { rewrite Forall_map in Hall. exact Hall. }
  split; [reflexivity|]. split.
  { rewrite country_options_values.
    eapply Permutation_NoDup; [apply Permutation_sym, sorted_perm|].
    apply unique_NoDup, String.eqb_eq. }
  split.
  { intros o. split.
    - intros Ho. unfold country_options in Ho. apply in_map_iff in Ho.
      destruct Ho as [c [<- Hc]]. rewrite sorted_In in Hc.
      apply (proj1 (unique_In _ String.eqb_eq _ _)) in Hc.
      apply in_map_iff in Hc. destruct Hc as [r [<- Hr]].
      exists r. now split.
    - intros [r [Hr ->]]. apply country_options_In. now apply in_map. }
  do 6 (split; [reflexivity|]).
  apply (marks_spec m (str m ++ "+")%string).
Qed.

Lemma app_layout_spec_witness :
  sample_grouped <> []
  /\ exists (L : Layout) (m : Z),
       app_layout sample_grouped = Ok L /\ m = 20
       /\ map value (dd_options (dropdown L)) = ["all"; "A"; "B"; "C"]
       /\ rs_marks (slider L)
          = [(0, "0"); (10000, "10K"); (50000, "50K"); (100000, "100K+");
             (20, "20+")].
Proof.
  split; [discriminate|].
  destruct (app_layout_spec sample_grouped) as (L & m & HL & _).
  - discriminate.
  - exists L, 20. vm_compute in HL. injection HL as <-.
    repeat split; reflexivity.
Defined.

(** * Lines 32-49: the line and bar charts (C3) *)

Lemma StronglySorted_app_inv {A : Type} (R : A -> A -> Prop) (l1 l2 : list A) :
  StronglySorted R (l1 ++ l2) ->
  StronglySorted R l1 /\ Forall (fun a => Forall (R a) l2) l1.
Proof.
  induction l1 as [|a l1 IH]; simpl; intros H.
  - split; constructor.
  - inversion H as [|? ? Hs Ha]. subst.
    apply Forall_app in Ha. destruct Ha as [Ha1 Ha2].
    destruct (IH Hs) as [IH1 IH2].
    split; constructor; assumption.
Qed.

Lemma StronglySorted_impl {A : Type} (R R' : A -> A -> Prop) (l : list A) :
  (forall a b, R a b -> R' a b) -> StronglySorted R l -> StronglySorted R' l.
Proof.
  intros HR. induction 1 as [|a l Hs IH Ha]; constructor.
  - exact IH.
  - eapply Forall_impl; [|exact Ha]. intros b. apply HR.
Qed.

Section NLargest.
Context {K : Type}.
Variable kleb : K -> K -> bool.
Variable le : K -> K -> Prop.
Hypothesis kleb_le : forall a b, kleb a b = true <-> le a b.
Hypothesis le_total : forall a b, le a b \/ le b a.
Hypothesis le_trans : forall a b c, le a b -> le b c -> le a c.

Lemma nlargest_top_by (n : nat) (col : row -> K) (data : table) :
  top_by le col n (nlargest kleb n col data) data.
Proof.
  unfold top_by, nlargest.
  set (desc := fun a b : row => kleb (col b) (col a)).
  assert (Hs : StronglySorted (fun a b => le (col b) (col a))
                              (sorted desc data)).
  { apply StronglySorted_impl with (R := fun a b => desc a b = true).
    - intros a b. unfold desc. apply kleb_le.
    - apply sorted_sorted; unfold desc.
      + intros a b. rewrite !kleb_le. apply le_total.
      + intros a b c. rewrite !kleb_le. eauto. }
  rewrite <- (firstn_skipn n (sorted desc data)) in Hs.
  apply StronglySorted_app_inv in Hs. destruct Hs as [Hs1 Hs2].
  split; [|split; [exact Hs1|]].
  - rewrite length_firstn, sorted_length. reflexivity.
  - exists (skipn n (sorted desc data)). split; [|exact Hs2].
    rewrite firstn_skipn. apply sorted_perm.
Qed.

Lemma nlargest_length (n : nat) (col : row -> K) (data : table) :
  (List.length (nlargest kleb n col data) <= n)%nat.
Proof. unfold nlargest. rewrite length_firstn. apply Nat.le_min_l. Qed.
End NLargest.

Lemma Qle_total (a b : Q) : (a <= b)%Q \/ (b <= a)%Q.
Proof.
  destruct (Qlt_le_dec a b) as [H|H]; [left; apply Qlt_le_weak, H | right; exact H].
Qed.

Lemma nunique_one_iff (l : list string) :
  nunique String.eqb l = 1%nat
  <-> exists c, In c l /\ forall x, In x l -> x = c.
Proof.
  unfold nunique.
  pose proof (unique_NoDup String.eqb String.eqb_eq l) as Hnd.
  pose proof (fun x => unique_In String.eqb String.eqb_eq x l) as Hin.
  destruct (unique String.eqb l) as [|a [|b t]]; simpl.
  - split; [discriminate|]. intros [c [Hc _]]. now apply Hin in Hc.
  - split; [intros _|reflexivity]. exists a. split.
    + apply Hin. now left.
    + intros x Hx. apply Hin in Hx. destruct Hx as [<-|[]]. reflexivity.
  - split; [discriminate|]. intros [c [_ Hall]]. exfalso.
    assert (Ha : a = c) by (apply Hall, Hin; now left).
    assert (Hb : b = c) by (apply Hall, Hin; right; now left).
    subst. inversion Hnd as [|? ? Hnotin _]. apply Hnotin. now left.
Qed.


Lemma nunique_one_distinct (data : table) :
  nunique String.eqb (map Country data) = 1%nat <-> one_distinct_country data.
Proof.
  rewrite nunique_one_iff. unfold one_distinct_country.
  split; intros [c [Hc Hall]]; exists c; (split; [exact Hc|]).
  - intros r Hr. apply Hall. now apply in_map.
  - intros x Hx. apply in_map_iff in Hx. destruct Hx as [r [<- Hr]].
    now apply Hall.
Qed.

Section BuilderFacts.
Context {px : Plotly}.

(** C3: when the table has exactly one distinct country, the line chart and
    the bar chart are each one [plotly.express] call given exactly the rows of
    the table; otherwise the line chart's call is given at most 5 rows, a
    selection of the table by descending Deaths, and the bar chart's call at
    most 10 rows, a selection by descending RecoveryRate. *)
Theorem line_bar_rows_spec (data : table) :
  (one_distinct_country data ->
   create_line_chart data
   = px_build (px_line data "Country/Region" ["Deaths"; "Confirmed"]
                       "Top 5 Countries: Deaths and Confirmed Cases" true)
   /\ create_bar_chart data
      = px_build (px_bar data "RecoveryRate" "Country/Region" "h"
                         "RecoveryRate" "Top 10 Countries by Recovery Rate"))
  /\ (~ one_distinct_country data ->
      exists top5 top10 : table,
        create_line_chart data
        = px_build (px_line top5 "Country/Region" ["Deaths"; "Confirmed"]
                            "Top 5 Countries: Deaths and Confirmed Cases" true)
        /\ (List.length top5 <= 5)%nat
        /\ top_by Z.le Deaths 5 top5 data
        /\ create_bar_chart data
           = px_build (px_bar top10 "RecoveryRate" "Country/Region" "h"
                              "RecoveryRate"
                              "Top 10 Countries by Recovery Rate")
        /\ (List.length top10 <= 10)%nat
        /\ top_by Qle RecoveryRate 10 top10 data).
Proof.
  unfold create_line_chart, create_bar_chart, line_rows, bar_rows.
  split; intros H.
  - apply nunique_one_distinct in H. rewrite H. simpl. split; reflexivity.
  - assert (H1 : Nat.eqb (nunique String.eqb (map Country data)) 1 = false).
    { apply Nat.eqb_neq. intros E. apply H. now apply nunique_one_distinct. }
    rewrite H1.
    exists (nlargest Z.leb 5 Deaths data),
           (nlargest Qle_bool 10 RecoveryRate data).
    split; [reflexivity|]. split; [apply nlargest_length|].
    split; [apply (nlargest_top_by Z.leb Z.le Z.leb_le Z.le_ge_cases Z.le_trans)|].
    split; [reflexivity|]. split; [apply nlargest_length|].
    apply (nlargest_top_by Qle_bool Qle Qle_bool_iff Qle_total Qle_trans).
Qed.
End BuilderFacts.

(** Twelve countries are cut to the five with most deaths and to the ten
    with the best recovery rates; eleven rows of one country are all plotted. *)
Lemma line_bar_rows_spec_witness :
  (~ one_distinct_country twelve_countries
   /\ exists top5 top10 : table,
        create_line_chart (px := facet_limited) twelve_countries
        = Ok (px_line top5 "Country/Region" ["Deaths"; "Confirmed"]
                      "Top 5 Countries: Deaths and Confirmed Cases" true)
        /\ map Country top5 = ["E"; "B"; "I"; "G"; "K"]
        /\ top_by Z.le Deaths 5 top5 twelve_countries
        /\ create_bar_chart (px := facet_limited) twelve_countries
           = Ok (px_bar top10 "RecoveryRate" "Country/Region" "h"
                        "RecoveryRate" "Top 10 Countries by Recovery Rate")
        /\ map Country top10
           = ["J"; "C"; "L"; "F"; "H"; "D"; "I"; "A"; "G"; "B"]
        /\ top_by Qle RecoveryRate 10 top10 twelve_countries)
  /\ (one_distinct_country one_country_eleven
      /\ List.length one_country_eleven = 11%nat
      /\ create_line_chart (px := facet_limited) one_country_eleven
         = Ok (px_line one_country_eleven "Country/Region"
                       ["Deaths"; "Confirmed"]
                       "Top 5 Countries: Deaths and Confirmed Cases" true)
      /\ create_bar_chart (px := facet_limited) one_country_eleven
         = Ok (px_bar one_country_eleven "RecoveryRate" "Country/Region" "h"
                      "RecoveryRate" "Top 10 Countries by Recovery Rate")).
Proof.
  split.
  - assert (Hnot : ~ one_distinct_country twelve_countries).
    { intros [c [_ Hall]].
      assert (Ha : "A" = c) by (apply (Hall (nth 0 twelve_countries
                                  (mkRow "" "" 0 0 0 0 0 0 0 0 0))); now left).
      assert (Hb : "B" = c) by (apply (Hall (nth 1 twelve_countries
                                  (mkRow "" "" 0 0 0 0 0 0 0 0 0)));
                                right; now left).
      rewrite <- Hb in Ha. discriminate Ha. }
    split; [exact Hnot|].
    destruct (proj2 (line_bar_rows_spec (px := facet_limited) twelve_countries)
                    Hnot)
      as (top5 & top10 & H5 & _ & Ht5 & H10 & _ & Ht10).
    exists top5, top10.
    assert (E5 : top5 = nlargest Z.leb 5 Deaths twelve_countries).
    { vm_compute in H5. injection H5 as <-. reflexivity. }
    assert (E10 : top10 = nlargest Qle_bool 10 RecoveryRate twelve_countries).
    { vm_compute in H10. injection H10 as <-. reflexivity. }
    split; [exact H5|]. split; [rewrite E5; reflexivity|].
    split; [exact Ht5|]. split; [exact H10|].
    split; [rewrite E10; reflexivity | exact Ht10].
  - assert (Hone : one_distinct_country one_country_eleven).
    { exists "A". split; [now left|].
      intros r Hr. unfold one_country_eleven in Hr.
      apply in_map_iff in Hr. destruct Hr as [i [<- _]]. reflexivity. }
    split; [exact Hone|]. split; [reflexivity|].
    destruct (proj1 (line_bar_rows_spec (px := facet_limited)
                       one_country_eleven) Hone) as [Hl Hb].
    split; [exact Hl | exact Hb].
Defined.

(** * Lines 135-144: the filter (C2) *)

Lemma filter_filter {A : Type} (p q : A -> bool) (l : list A) :
  filter q (filter p l) = filter (fun a => p a && q a) l.
Proof.
  induction l as [|a l IH]; simpl; [reflexivity|].
  destruct (p a); simpl; [|exact IH].
  destruct (q a); [f_equal|]; exact IH.
Qed.

Lemma filter_engine_mask (grouped : table) (sel : string) (lo hi : Z) :
  exists mask, filter_engine grouped sel (lo, hi) = filter mask grouped.
Proof.
  unfold filter_engine.
  destruct (negb (sel =? "all")%string).
  - rewrite filter_filter. eexists. reflexivity.
  - eexists. reflexivity.
Qed.

Lemma filter_engine_In (grouped : table) (sel : string) (lo hi : Z) (r : row) :
  In r (filter_engine grouped sel (lo, hi))
  <-> In r grouped /\ lo <= Deaths r <= hi
      /\ (Country r = sel \/ sel = "all").
Proof.
  unfold filter_engine.
  destruct (String.eqb_spec sel "all") as [->|Hsel]; simpl.
  - rewrite filter_In, andb_true_iff, Z.leb_le, Z.leb_le. tauto.
  - rewrite filter_filter.
    rewrite filter_In, !andb_true_iff, !Z.leb_le, String.eqb_eq. tauto.
Qed.

(** C2: for every aggregated table, country selection and range [lo, hi],
    the filter keeps or drops each row of its input (its output is the input
    filtered by one predicate), and a row is in the output exactly when it is
    a row of the input with lo <= Deaths <= hi whose country is the selection,
    or the selection is "all". *)
Theorem filter_engine_spec (grouped : table) (sel : string) (lo hi : Z) :
  (exists mask, filter_engine grouped sel (lo, hi) = filter mask grouped)
  /\ incl (filter_engine grouped sel (lo, hi)) grouped
  /\ forall r,
       In r (filter_engine grouped sel (lo, hi))
       <-> In r grouped /\ lo <= Deaths r <= hi
           /\ (Country r = sel \/ sel = "all").
Proof.
  destruct (filter_engine_mask grouped sel lo hi) as [mask Hmask].
  split; [exists mask; exact Hmask|]. split.
  - rewrite Hmask. apply incl_filter.
  - apply filter_engine_In.
Qed.

(** * Lines 135-153: the callback on the store (C6, C8) *)

Lemma nth_error_snoc (s : store) (t : table) :
  nth_error (s ++ [t]) (List.length s) = Some t.
Proof. rewrite nth_error_app2, Nat.sub_diag; [reflexivity | apply Nat.le_refl]. Qed.

Lemma nth_error_grows (s fresh : store) (p : ref) (t : table) :
  nth_error s p = Some t -> nth_error (s ++ fresh) p = Some t.
Proof.
  intros H. rewrite nth_error_app1; [exact H|].
  apply nth_error_Some. congruence.
Qed.

(** The filter by reference allocates one or two frames, touches no other,
    and returns a reference to a frame holding [filter_engine]'s rows. *)
Lemma filter_frames_run (s : store) (g : table) (sel : string) (rng : Z * Z) :
  nth_error s grouped_data_ref = Some g ->
  exists (p : ref) (fresh : store),
    filter_frames sel rng s = (Ok p, s ++ fresh)
    /\ (List.length s <= p)%nat
    /\ nth_error (s ++ fresh) p = Some (filter_engine g sel rng).
Proof.
  intros Hg. destruct rng as [lo hi].
  unfold filter_frames, filter_engine, getitem_mask, bind, load, new_frame, ret.
  rewrite Hg.
  destruct (negb (sel =? "all")%string).
  - rewrite nth_error_snoc.
    eexists. eexists [_; _]. split; [|split].
    + rewrite <- app_assoc. reflexivity.
    + rewrite length_app. simpl. lia.
    + change [?a; ?b] with ([a] ++ [b]).
      rewrite app_assoc. apply nth_error_snoc.
  - eexists. eexists [_]. split; [reflexivity|]. split; [apply Nat.le_refl|].
    apply nth_error_snoc.
Qed.

Lemma facet_limited_no_data (call : figure) :
  no_data call -> px_error (Plotly := facet_limited) call = None.
Proof.
  destruct call as [| d x y color [col|] wrap t | | |]; simpl; try reflexivity.
  intros ->. simpl. destruct wrap as [|w]; [reflexivity|].
  cbn [Nat.eqb]. rewrite Nat.div_small by lia. reflexivity.
Qed.

Section CallbackFacts.
Context {px : Plotly}.
Variable gaussian_kde : list Q -> result (Q -> Q).

Lemma update_charts_run (s : store) (g : table) (sel : string) (rng : Z * Z) :
  nth_error s grouped_data_ref = Some g ->
  exists fresh : store,
    update_charts gaussian_kde sel rng s
    = (build_charts gaussian_kde (filter_engine g sel rng), s ++ fresh).
Proof.
  intros Hg.
  destruct (filter_frames_run s g sel rng Hg) as (p & fresh & Hrun & _ & Hp).
  exists fresh. unfold update_charts, bind, load, lift.
  rewrite Hrun, Hp. reflexivity.
Qed.

Lemma px_build_no_data (call : figure) :
  (forall c, no_data c -> px_error c = None) ->
  no_data call -> px_build call = Ok call.
Proof. intros Htol H. unfold px_build. now rewrite (Htol call H). Qed.

Lemma build_charts_empty :
  (forall c, no_data c -> px_error c = None) ->
  exists figs, build_charts gaussian_kde [] = Ok figs
               /\ empty_or_placeholder figs.
Proof.
  intros Htol. unfold build_charts, create_line_chart, create_scatter_plot,
    create_bar_chart, create_box_plot, create_faceted_plot,
    create_density_plot.
  cbn [line_rows bar_rows map dropna List.length Nat.ltb Nat.leb].
  rewrite !(px_build_no_data _ Htol) by (simpl; auto).
  cbn [bind_result]. eexists. split; [reflexivity|]. repeat split.
Qed.


(** C8: when [grouped_data] refers to the table [g], running the callback
    for any selection and range only adds frames to the store: the filtered
    view is a frame at a new reference, every frame that existed keeps its
    rows, and [grouped_data] still refers to [g]. *)
Theorem update_charts_preserves_grouped_data
        (s : store) (g : table) (sel : string) (rng : Z * Z) :
  nth_error s grouped_data_ref = Some g ->
  exists (p : ref) (fresh : store),
    filter_frames sel rng s = (Ok p, s ++ fresh)
    /\ p <> grouped_data_ref
    /\ nth_error s p = None
    /\ nth_error (s ++ fresh) p = Some (filter_engine g sel rng)
    /\ snd (update_charts gaussian_kde sel rng s) = s ++ fresh
    /\ nth_error (snd (update_charts gaussian_kde sel rng s)) grouped_data_ref
       = Some g.
Proof.
  intros Hg.
  destruct (filter_frames_run s g sel rng Hg) as (p & fresh & Hrun & Hle & Hp).
  exists p, fresh.
  assert (Hlen : (0 < List.length s)%nat).
  { apply nth_error_Some. unfold grouped_data_ref in Hg. congruence. }
  assert (Hsnd : snd (update_charts gaussian_kde sel rng s) = s ++ fresh).
  { unfold update_charts, bind, load, lift. rewrite Hrun, Hp. reflexivity. }
  split; [exact Hrun|]. split; [unfold grouped_data_ref; lia|].
  split; [now apply nth_error_None|]. split; [exact Hp|].
  split; [exact Hsnd|]. rewrite Hsnd. now apply nth_error_grows.
Qed.


(** C6: provided [plotly.express] refuses no call that is given no row and
    no point, and [grouped_data] refers to the table [g]: a selection and range
    whose filtered table is empty make the callback return six figures without
    raising; the five frame-based figures plot no row and the density figure
    is the placeholder.  In particular this is so for the range [0, 0] when no
    row of [g] has zero deaths. *)
Theorem update_charts_empty_filter
        (s : store) (g : table) (sel : string) (rng : Z * Z) :
  (forall call, no_data call -> px_error call = None) ->
  nth_error s grouped_data_ref = Some g ->
  (filter_engine g sel rng = [] ->
   exists figs, fst (update_charts gaussian_kde sel rng s) = Ok figs
                /\ empty_or_placeholder figs)
  /\ ((forall r, In r g -> Deaths r <> 0) ->
      filter_engine g sel (0, 0) = []
      /\ exists figs,
           fst (update_charts gaussian_kde sel (0, 0) s) = Ok figs
           /\ empty_or_placeholder figs).
Proof.
  intros Htol Hg.
  assert (Hempty : forall rng', filter_engine g sel rng' = [] ->
            exists figs, fst (update_charts gaussian_kde sel rng' s) = Ok figs
                         /\ empty_or_placeholder figs).
  { intros rng' Hf.
    destruct (update_charts_run s g sel rng' Hg) as [fresh Hrun].
    rewrite Hrun, Hf. simpl. now apply build_charts_empty. }
  split; [apply Hempty|].
  intros Hno.
  assert (Hf : filter_engine g sel (0, 0) = []).
  { destruct (filter_engine g sel (0, 0)) as [|r t] eqn:E; [reflexivity|].
    assert (Hr : In r (filter_engine g sel (0, 0))) by (rewrite E; now left).
    apply filter_engine_In in Hr. destruct Hr as (Hin & Hd & _).
    exfalso. apply (Hno r Hin). lia. }
  split; [exact Hf | now apply Hempty].
Qed.
End CallbackFacts.

Lemma update_charts_preserves_grouped_data_witness :
  nth_error sample_store grouped_data_ref = Some sample_grouped
  /\ nth_error (snd (update_charts (px := facet_limited) refusing_kde
                                   "B" (0, 10) sample_store))
               grouped_data_ref
     = Some sample_grouped.
Proof.
  split; [reflexivity|].
  destruct (update_charts_preserves_grouped_data (px := facet_limited)
              refusing_kde sample_store sample_grouped "B" (0, 10) eq_refl)
    as (p & fresh & _ & _ & _ & _ & _ & H).
  exact H.
Defined.

Lemma update_charts_empty_filter_witness :
  (filter_engine sample_grouped "all" (100, 200) = []
   /\ exists figs,
        fst (update_charts (px := facet_limited) refusing_kde
                           "all" (100, 200) sample_store) = Ok figs
        /\ empty_or_placeholder figs)
  /\ (Forall (fun r => Deaths r <> 0) with_deaths
      /\ filter_engine with_deaths "all" (0, 0) = []
      /\ exists figs,
           fst (update_charts (px := facet_limited) refusing_kde
                              "all" (0, 0) [with_deaths]) = Ok figs
           /\ empty_or_placeholder figs).
Proof.
  split.
  - split; [reflexivity|].
    apply (proj1 (update_charts_empty_filter (px := facet_limited)
                    refusing_kde sample_store sample_grouped "all" (100, 200)
                    facet_limited_no_data eq_refl)).
    reflexivity.
  - assert (Hno : Forall (fun r => Deaths r <> 0) with_deaths).
    { repeat constructor; discriminate. }
    split; [exact Hno|].
    apply (proj2 (update_charts_empty_filter (px := facet_limited)
                    refusing_kde [with_deaths] with_deaths "all" (0, 0)
                    facet_limited_no_data eq_refl)).
    intros r Hr. rewrite Forall_forall in Hno. now apply Hno.
Defined.

(** * Lines 60-74: the density plot (C1) *)

Lemma Qmin2_spec (a b : Q) :
  (Qmin2 a b = a \/ Qmin2 a b = b)
  /\ (Qmin2 a b <= a)%Q /\ (Qmin2 a b <= b)%Q.
Proof.
  unfold Qmin2. destruct (Qle_bool a b) eqn:E.
  - apply Qle_bool_iff in E. repeat split; auto. apply Qle_refl.
  - assert (H : (b < a)%Q).
    { apply Qnot_le_lt. intros H. apply Qle_bool_iff in H. congruence. }
    repeat split; auto; [apply Qlt_le_weak, H | apply Qle_refl].
Qed.

Lemma Qmax2_spec (a b : Q) :
  (Qmax2 a b = a \/ Qmax2 a b = b)
  /\ (a <= Qmax2 a b)%Q /\ (b <= Qmax2 a b)%Q.
Proof.
  unfold Qmax2. destruct (Qle_bool a b) eqn:E.
  - apply Qle_bool_iff in E. repeat split; auto. apply Qle_refl.
  - assert (H : (b < a)%Q).
    { apply Qnot_le_lt. intros H. apply Qle_bool_iff in H. congruence. }
    repeat split; auto; [apply Qle_refl | apply Qlt_le_weak, H].
Qed.

Lemma fold_left_Qmin2 (l : list Q) (a : Q) :
  In (fold_left Qmin2 l a) (a :: l)
  /\ Forall (fun v => (fold_left Qmin2 l a <= v)%Q) (a :: l).
Proof.
  revert a. induction l as [|x l IH]; intros a; simpl.
  - split; [now left|]. constructor; [apply Qle_refl | constructor].
  - destruct (IH (Qmin2 a x)) as [Hin Hall].
    destruct (Qmin2_spec a x) as [Hor [Ha Hx]].
    inversion Hall as [|? ? Hm Hl]. subst. split.
    + destruct Hin as [Hin|Hin]; [|simpl; tauto].
      destruct Hor as [E|E]; rewrite E in *; simpl; tauto.
    + constructor; [eapply Qle_trans; eassumption|].
      constructor; [eapply Qle_trans; eassumption | exact Hl].
Qed.

Lemma fold_left_Qmax2 (l : list Q) (a : Q) :
  In (fold_left Qmax2 l a) (a :: l)
  /\ Forall (fun v => (v <= fold_left Qmax2 l a)%Q) (a :: l).
Proof.
  revert a. induction l as [|x l IH]; intros a; simpl.
  - split; [now left|]. constructor; [apply Qle_refl | constructor].
  - destruct (IH (Qmax2 a x)) as [Hin Hall].
    destruct (Qmax2_spec a x) as [Hor [Ha Hx]].
    inversion Hall as [|? ? Hm Hl]. subst. split.
    + destruct Hin as [Hin|Hin]; [|simpl; tauto].
      destruct Hor as [E|E]; rewrite E in *; simpl; tauto.
    + constructor; [eapply Qle_trans; eassumption|].
      constructor; [eapply Qle_trans; eassumption | exact Hl].
Qed.

Lemma linspace_length (a b : Q) (num : nat) :
  List.length (linspace a b num) = num.
Proof. unfold linspace. now rewrite length_map, length_seq. Qed.

Lemma linspace_nth (a b : Q) (num i : nat) :
  (i < num)%nat ->
  nth i (linspace a b num) 0%Q
  = (a + inject_Z (Z.of_nat i)
         * ((b - a) / inject_Z (Z.of_nat (num - 1))))%Q.
Proof.
  intros Hi. unfold linspace.
  set (f := fun j : nat => (a + inject_Z (Z.of_nat j) * _)%Q).
  rewrite (nth_indep _ 0%Q (f 0%nat)) by now rewrite length_map, length_seq.
  rewrite map_nth, seq_nth by exact Hi. reflexivity.
Qed.

(** The 200 abscissas run from the first bound to the second. *)
Lemma linspace_200_ends (a b : Q) :
  (nth 0 (linspace a b 200) 0 == a)%Q /\ (nth 199 (linspace a b 200) 0 == b)%Q.
Proof.
  rewrite !linspace_nth by lia. split.
  - change (inject_Z (Z.of_nat 0)) with 0%Q. ring.
  - change (inject_Z (Z.of_nat 199)) with (199 # 1)%Q.
    change (inject_Z (Z.of_nat (200 - 1))) with (199 # 1)%Q.
    field.
Qed.

Section DensityFacts.
Context {px : Plotly}.
Variable gaussian_kde : list Q -> result (Q -> Q).

Lemma px_build_cases (call : figure) :
  px_build call = Ok call \/ exists e, px_build call = Raise e.
Proof.
  unfold px_build. destruct (px_error call) as [e|]; [right; now exists e|].
  now left.
Qed.

(** What the guard of line 62 decides: the placeholder is returned only
    when the table has fewer than two rows. *)
Lemma create_density_plot_placeholder (data : table) :
  is_insufficient_data (create_density_plot gaussian_kde data) = true ->
  (List.length data < 2)%nat.
Proof.
  unfold create_density_plot, dropna. rewrite length_map.
  destruct (Nat.ltb_spec 1 (List.length data)) as [H|H]; [|lia].
  intros Hp. exfalso.
  destruct data as [|r [|r' data]]; simpl in H; try lia.
  cbn [map array_min array_max bind_result] in Hp.
  destruct (gaussian_kde _) as [k|e]; cbn [bind_result] in Hp;
    [|discriminate].
  match type of Hp with
  | is_insufficient_data (px_build ?c) = true =>
      destruct (px_build_cases c) as [E|[e E]]; rewrite E in Hp
  end; [|discriminate].
  unfold is_insufficient_data in Hp.
  destruct (linspace _ _ 200); [|discriminate].
  destruct (map k []); discriminate.
Qed.

(** With two or more rows and an estimator, the figure is the call of
    [px.area] on the estimated curve over 200 abscissas from the least to the
    greatest CFR. *)
Lemma create_density_plot_curve (data : table) (kde : Q -> Q) :
  (2 <= List.length data)%nat ->
  gaussian_kde (map CFR data) = Ok kde ->
  exists lo hi : Q,
    create_density_plot gaussian_kde data
    = px_build (px_area (linspace lo hi 200) (map kde (linspace lo hi 200))
                        "Distribution of Case Fatality Rates (Density Plot)")
    /\ In lo (map CFR data) /\ Forall (fun v => (lo <= v)%Q) (map CFR data)
    /\ In hi (map CFR data) /\ Forall (fun v => (v <= hi)%Q) (map CFR data)
    /\ List.length (linspace lo hi 200) = 200%nat
    /\ (nth 0 (linspace lo hi 200) 0 == lo)%Q
    /\ (nth 199 (linspace lo hi 200) 0 == hi)%Q.
Proof.
  intros Hlen Hkde. unfold create_density_plot, dropna.
  rewrite length_map.
  destruct (Nat.ltb_spec 1 (List.length data)) as [_|H]; [|lia].
  rewrite Hkde. destruct data as [|r data]; [simpl in Hlen; lia|].
  cbn [map array_min array_max bind_result].
  destruct (fold_left_Qmin2 (map CFR data) (CFR r)) as [Hlo1 Hlo2].
  destruct (fold_left_Qmax2 (map CFR data) (CFR r)) as [Hhi1 Hhi2].
  eexists. eexists. split; [reflexivity|].
  repeat split; try assumption; try apply linspace_200_ends.
Qed.

(** C1 (the code's slip): the table [two_zero_cfr] has two rows and a
    single distinct CFR value, fewer than 2; whatever the estimator does with
    the sample, the builder does not return the "Insufficient Data"
    placeholder for it, because line 62 counts values and not distinct
    values. *)
Theorem create_density_plot_equal_values_not_placeholder :
  nunique Qeq_bool (map CFR two_zero_cfr) = 1%nat
  /\ (nunique Qeq_bool (map CFR two_zero_cfr) < 2)%nat
  /\ is_insufficient_data (create_density_plot gaussian_kde two_zero_cfr)
     = false
  /\ create_density_plot gaussian_kde two_zero_cfr
     = bind_result (gaussian_kde [0%Q; 0%Q])
         (fun kde =>
            px_build
              (px_area (linspace 0 0 200) (map kde (linspace 0 0 200))
                       "Distribution of Case Fatality Rates (Density Plot)")).
Proof.
  split; [reflexivity|]. split; [unfold lt; reflexivity|].
  split.
  - destruct (is_insufficient_data _) eqn:E; [|reflexivity].
    apply create_density_plot_placeholder in E. simpl in E. lia.
  - unfold create_density_plot, dropna, two_zero_cfr.
    cbn [map CFR List.length Nat.ltb Nat.leb array_min array_max fold_left].
    destruct (gaussian_kde [0%Q; 0%Q]); reflexivity.
Qed.
End DensityFacts.

(** * Further properties of the builders and of the filter *)

(** X1: the test of lines 33 and 45 holds exactly when the frame is not
    empty and all its rows carry the same country. *)
Theorem nunique_country_one_iff (data : table) :
  nunique String.eqb (map Country data) = 1%nat
  <-> data <> []
      /\ forall r r', In r data -> In r' data -> Country r = Country r'.
Proof.
  rewrite nunique_one_iff. split.
  - intros [c [Hc Hall]]. split.
    + intros ->. destruct Hc.
    + intros r r' Hr Hr'.
      rewrite (Hall (Country r)), (Hall (Country r')); auto using in_map.
  - intros [Hne Hall]. destruct data as [|r0 data]; [contradiction|].
    exists (Country r0). split; [now left|].
    intros x Hx. apply in_map_iff in Hx. destruct Hx as [r [<- Hr]].
    apply Hall; [exact Hr | now left].
Qed.

Lemma one_country_rows (data : table) (c : string) :
  Forall (fun r => Country r = c) data ->
  line_rows data = data /\ bar_rows data = data.
Proof.
  intros Hall. destruct data as [|r0 data]; [split; reflexivity|].
  assert (H1 : nunique String.eqb (map Country (r0 :: data)) = 1%nat).
  { apply nunique_one_iff. exists c. rewrite Forall_forall in Hall. split.
    - simpl. left. apply Hall. now left.
    - intros x Hx. apply in_map_iff in Hx. destruct Hx as [r [<- Hr]].
      now apply Hall. }
  unfold line_rows, bar_rows. rewrite H1. split; reflexivity.
Qed.

Section BuilderMore.
Context {px : Plotly}.

(** X2: when a country is selected (the selection is not "all"), the line
    chart and the bar chart are calls given the whole filtered frame: the top-5
    and top-10 cuts never drop a row of a single country. *)
Theorem selected_country_not_truncated
        (grouped : table) (sel : string) (rng : Z * Z) :
  sel <> "all" ->
  create_line_chart (filter_engine grouped sel rng)
  = px_build (px_line (filter_engine grouped sel rng)
                      "Country/Region" ["Deaths"; "Confirmed"]
                      "Top 5 Countries: Deaths and Confirmed Cases" true)
  /\ create_bar_chart (filter_engine grouped sel rng)
     = px_build (px_bar (filter_engine grouped sel rng)
                        "RecoveryRate" "Country/Region" "h" "RecoveryRate"
                        "Top 10 Countries by Recovery Rate").
Proof.
  intros Hsel. destruct rng as [lo hi].
  unfold create_line_chart, create_bar_chart.
  destruct (one_country_rows (filter_engine grouped sel (lo, hi)) sel)
    as [Hl Hb].
  - apply Forall_forall. intros r Hr.
    apply filter_engine_In in Hr. destruct Hr as (_ & _ & [H|H]);
      [exact H | contradiction].
  - rewrite Hl, Hb. split; reflexivity.
Qed.
End BuilderMore.

Lemma selected_country_not_truncated_witness :
  "B" <> "all"
  /\ List.length (filter_engine sample_grouped "B" (0, 10)) = 1%nat
  /\ create_line_chart (px := facet_limited)
                       (filter_engine sample_grouped "B" (0, 10))
     = Ok (px_line (filter_engine sample_grouped "B" (0, 10))
                   "Country/Region" ["Deaths"; "Confirmed"]
                   "Top 5 Countries: Deaths and Confirmed Cases" true).
Proof.
  split; [discriminate|]. split; [reflexivity|].
  rewrite (proj1 (selected_country_not_truncated (px := facet_limited)
                    sample_grouped "B" (0, 10)
                    ltac:(discriminate))).
  reflexivity.
Defined.

Lemma nlargest_all {K : Type} (kleb : K -> K -> bool) (n : nat)
      (col : row -> K) (data : table) :
  (List.length data <= n)%nat -> Permutation (nlargest kleb n col data) data.
Proof.
  intros H. unfold nlargest.
  rewrite firstn_all2 by now rewrite sorted_length.
  apply sorted_perm.
Qed.

Lemma nlargest_incl {K : Type} (kleb : K -> K -> bool) (n : nat)
      (col : row -> K) (data : table) :
  incl (nlargest kleb n col data) data.
Proof.
  intros r Hr. unfold nlargest in Hr.
  apply (sorted_In (fun a b => kleb (col b) (col a))).
  rewrite <- (firstn_skipn n (sorted _ data)).
  apply in_or_app. now left.
Qed.

Lemma line_rows_incl (data : table) : incl (line_rows data) data.
Proof.
  unfold line_rows. destruct (Nat.eqb _ 1); [apply incl_refl|].
  apply nlargest_incl.
Qed.

Lemma bar_rows_incl (data : table) : incl (bar_rows data) data.
Proof.
  unfold bar_rows. destruct (Nat.eqb _ 1); [apply incl_refl|].
  apply nlargest_incl.
Qed.

Section BuilderSmall.
Context {px : Plotly}.

(** X3: a frame of at most 5 rows is plotted whole by the line chart, and a
    frame of at most 10 rows is plotted whole by the bar chart: the rows their
    calls are given are a rearrangement of the frame's rows. *)
Theorem small_frame_plotted_whole (data : table) :
  ((List.length data <= 5)%nat ->
   exists top : table,
     create_line_chart data
     = px_build (px_line top "Country/Region" ["Deaths"; "Confirmed"]
                         "Top 5 Countries: Deaths and Confirmed Cases" true)
     /\ Permutation top data)
  /\ ((List.length data <= 10)%nat ->
      exists top : table,
        create_bar_chart data
        = px_build (px_bar top "RecoveryRate" "Country/Region" "h"
                           "RecoveryRate" "Top 10 Countries by Recovery Rate")
        /\ Permutation top data).
Proof.
  unfold create_line_chart, create_bar_chart, line_rows, bar_rows.
  split; intros H; eexists; (split; [reflexivity|]);
    destruct (Nat.eqb _ 1); try apply Permutation_refl;
    now apply nlargest_all.
Qed.
End BuilderSmall.

Lemma small_frame_plotted_whole_witness :
  (List.length sample_grouped <= 5)%nat
  /\ exists top : table,
       create_line_chart (px := facet_limited) sample_grouped
       = Ok (px_line top "Country/Region" ["Deaths"; "Confirmed"]
                     "Top 5 Countries: Deaths and Confirmed Cases" true)
       /\ Permutation top sample_grouped.
Proof.
  split; [vm_compute; lia|].
  destruct (proj1 (small_frame_plotted_whole (px := facet_limited)
                     sample_grouped)) as [top [H1 H2]].
  - vm_compute. lia.
  - exists top. split; [exact H1 | exact H2].
Defined.

(** ** Ties in [nlargest] *)

Section Stability.
Context {K : Type}.
Variable kleb : K -> K -> bool.
Variable col : row -> K.
Variable cls : row -> bool.
(** Two rows of the class [cls] have comparable columns. *)
Hypothesis cls_tied :
  forall a b, cls a = true -> cls b = true -> kleb (col b) (col a) = true.

Local Abbreviation desc := (fun a b : row => kleb (col b) (col a)).

Lemma filter_insert (x : row) (l : table) :
  filter cls (insert desc x l)
  = if cls x then x :: filter cls l else filter cls l.
Proof.
  induction l as [|y l IH]; simpl.
  - reflexivity.
  - destruct (kleb (col y) (col x)) eqn:E; simpl.
    + reflexivity.
    + rewrite IH.
      destruct (cls x) eqn:Ex, (cls y) eqn:Ey; try reflexivity.
      rewrite (cls_tied x y Ex Ey) in E. discriminate.
Qed.

Lemma filter_sorted (l : table) : filter cls (sorted desc l) = filter cls l.
Proof.
  induction l as [|x l IH]; simpl; [reflexivity|].
  rewrite filter_insert, IH. reflexivity.
Qed.
End Stability.

Lemma filter_firstn {A : Type} (p : A -> bool) (n : nat) (l : list A) :
  exists k, filter p (firstn n l) = firstn k (filter p l).
Proof.
  revert l. induction n as [|n IH]; intros l.
  - exists 0%nat. reflexivity.
  - destruct l as [|a l]; [exists 0%nat; reflexivity|].
    destruct (IH l) as [k Hk]. simpl. destruct (p a).
    + exists (S k). simpl. now rewrite Hk.
    + exists k. exact Hk.
Qed.

(** X4: ties of the top-5 and top-10 selections are resolved in table
    order: among the rows of one Deaths value, the rows the line selection
    takes are the first ones of the table with that value, in table order; and
    likewise for the bar selection and the rows of one RecoveryRate. *)
Theorem nlargest_ties_in_table_order (data : table) :
  (forall v : Z,
      exists k, filter (with_deaths_eq v) (nlargest Z.leb 5 Deaths data)
                = firstn k (filter (with_deaths_eq v) data))
  /\ (forall v : Q,
         exists k,
           filter (with_rate_eq v) (nlargest Qle_bool 10 RecoveryRate data)
           = firstn k (filter (with_rate_eq v) data)).
Proof.
  split; intros v; unfold nlargest.
  - destruct (filter_firstn (with_deaths_eq v) 5
                (sorted (fun a b => Z.leb (Deaths b) (Deaths a)) data))
      as [k Hk].
    exists k. rewrite Hk. f_equal.
    apply filter_sorted. unfold with_deaths_eq. intros a b Ha Hb.
    apply Z.eqb_eq in Ha, Hb. apply Z.leb_le. lia.
  - destruct (filter_firstn (with_rate_eq v) 10
                (sorted (fun a b => Qle_bool (RecoveryRate b) (RecoveryRate a))
                        data))
      as [k Hk].
    exists k. rewrite Hk. f_equal.
    apply filter_sorted. unfold with_rate_eq. intros a b Ha Hb.
    apply Qeq_bool_iff in Ha, Hb. apply Qle_bool_iff.
    rewrite Ha, Hb. apply Qle_refl.
Qed.

Lemma nlargest_ties_in_table_order_witness :
  map Country (nlargest Z.leb 5 Deaths tied_deaths) = ["B"; "A"; "C"]
  /\ exists k, filter (with_deaths_eq 7) (nlargest Z.leb 5 Deaths tied_deaths)
               = firstn k (filter (with_deaths_eq 7) tied_deaths).
Proof.
  split; [reflexivity|].
  apply (proj1 (nlargest_ties_in_table_order tied_deaths) 7).
Defined.

(** * Further properties of the aggregation *)

Lemma Zsum_cons (x : Z) (l : list Z) :
  fold_left Z.add (x :: l) 0 = x + fold_left Z.add l 0.
Proof. simpl. apply fold_left_Zadd. Qed.

Lemma Zsum_map_add {A : Type} (a b : A -> Z) (l : list A) :
  fold_left Z.add (map (fun k => a k + b k) l) 0
  = fold_left Z.add (map a l) 0 + fold_left Z.add (map b l) 0.
Proof.
  induction l as [|k l IH]; [reflexivity|].
  cbn [map]. rewrite !Zsum_cons, IH. lia.
Qed.

Lemma Zsum_indicator (k0 : key) (v : Z) (ks : list key) :
  NoDup ks -> In k0 ks ->
  fold_left Z.add (map (fun k => if key_eqb k0 k then v else 0) ks) 0 = v.
Proof.
  induction 1 as [|k ks Hk Hnd IH]; intros Hin; [destruct Hin|].
  cbn [map]. rewrite Zsum_cons.
  destruct (key_eqb k0 k) eqn:E.
  - apply key_eqb_eq in E. subst k.
    assert (Hz : fold_left Z.add
                   (map (fun k => if key_eqb k0 k then v else 0) ks) 0 = 0).
    { clear IH Hin Hnd. induction ks as [|k ks IH]; [reflexivity|].
      cbn [map]. rewrite Zsum_cons.
      destruct (key_eqb k0 k) eqn:E.
      - apply key_eqb_eq in E. subst. exfalso. apply Hk. now left.
      - rewrite IH; [reflexivity|]. intros H. apply Hk. now right. }
    rewrite Hz. lia.
  - destruct Hin as [->|Hin].
    + rewrite (proj2 (key_eqb_eq k0 k0) eq_refl) in E. discriminate.
    + rewrite (IH Hin). lia.
Qed.

Lemma Zsum_groups (f : row -> Z) (ks : list key) (data : table) :
  NoDup ks ->
  (forall r, In r data -> In (key_of r) ks) ->
  fold_left Z.add
            (map (fun k => fold_left Z.add (map f (group data k)) 0) ks) 0
  = fold_left Z.add (map f data) 0.
Proof.
  intros Hnd. induction data as [|r data IH]; intros Hin.
  - unfold group. simpl. clear Hnd Hin.
    induction ks as [|k ks IHk]; [reflexivity|].
    cbn [map]. rewrite Zsum_cons, IHk. reflexivity.
  - rewrite (map_ext _ (fun k => (if key_eqb (key_of r) k then f r else 0)
                                 + fold_left Z.add (map f (group data k)) 0)).
    + rewrite Zsum_map_add.
      rewrite IH by (intros r' Hr'; apply Hin; now right).
      rewrite Zsum_indicator;
        [|exact Hnd|apply Hin; now left].
      cbn [map]. now rewrite Zsum_cons.
    + intros k. unfold group. simpl.
      destruct (key_eqb (key_of r) k); [|lia].
      cbn [map]. now rewrite Zsum_cons.
Qed.

Lemma wrap64_Zsum_map {A : Type} (a : A -> Z) (l : list A) :
  wrap64 (fold_left Z.add (map (fun k => wrap64 (a k)) l) 0)
  = wrap64 (fold_left Z.add (map a l) 0).
Proof.
  induction l as [|k l IH]; [reflexivity|].
  cbn [map]. rewrite !Zsum_cons.
  rewrite wrap64_add_l, <- wrap64_add_r, IH, wrap64_add_r. reflexivity.
Qed.

Section AggregationMore.
Context {fl : Binary64} {gm : GroupMean}.

Lemma sum_col_groupby (col : row -> Z) (data : table) :
  (forall k rows, col (agg k rows) = sum_col col rows) ->
  sum_col col (groupby_agg data) = sum_col col data.
Proof.
  intros Hcol. unfold groupby_agg.
  rewrite !sum_col_wrap, map_map.
  rewrite (map_ext _ (fun k => wrap64 (fold_left Z.add
                                         (map col (group data k)) 0)))
    by (intros k; rewrite Hcol; apply sum_col_wrap).
  rewrite (wrap64_Zsum_map
             (fun k => fold_left Z.add (map col (group data k)) 0)).
  f_equal. apply Zsum_groups; [apply group_keys_NoDup|].
  intros r Hr. apply group_keys_In. now apply in_map.
Qed.

(** X5: aggregation keeps the totals: for each of the seven count columns,
    the int64 sum of the column over the aggregated table equals its int64 sum
    over the table it is computed from. *)
Theorem groupby_agg_preserves_totals (data : table) :
  sum_col Confirmed (groupby_agg data) = sum_col Confirmed data
  /\ sum_col Deaths (groupby_agg data) = sum_col Deaths data
  /\ sum_col Recovered (groupby_agg data) = sum_col Recovered data
  /\ sum_col Active (groupby_agg data) = sum_col Active data
  /\ sum_col New_cases (groupby_agg data) = sum_col New_cases data
  /\ sum_col New_deaths (groupby_agg data) = sum_col New_deaths data
  /\ sum_col New_recovered (groupby_agg data) = sum_col New_recovered data.
Proof.
  repeat split; apply sum_col_groupby; reflexivity.
Qed.

Lemma strictly_sorted_keys (l : list key) :
  StronglySorted (fun a b => key_leb a b = true) l ->
  NoDup l ->
  StronglySorted key_lt l.
Proof.
  induction 1 as [|a l Hl IH Ha]; intros Hnd.
  - constructor.
  - inversion Hnd as [|? ? Hnotin Hnd']. subst.
    constructor; [now apply IH|].
    rewrite Forall_forall in *. intros b Hb. split; [now apply Ha|].
    intros ->. contradiction.
Qed.

(** X6: the aggregated table is in strictly ascending order of its
    (Country/Region, WHO Region) pairs, and each of its pairs is the pair of
    some row of the table it is computed from. *)
Theorem groupby_agg_sorted_by_key (data : table) :
  StronglySorted key_lt (map key_of (groupby_agg data))
  /\ forall g, In g (groupby_agg data) ->
               exists r, In r data /\ key_of r = key_of g.
Proof.
  split.
  - rewrite groupby_agg_keys. apply strictly_sorted_keys.
    + apply sorted_sorted; [apply key_leb_total | apply key_leb_trans].
    + apply group_keys_NoDup.
  - intros g Hg.
    assert (Hk : In (key_of g) (group_keys data)).
    { rewrite <- groupby_agg_keys. now apply in_map. }
    apply group_keys_In, in_map_iff in Hk.
    destruct Hk as [r [Hr1 Hr2]]. exists r. now split.
Qed.


Lemma group_nonempty (data : table) (k : key) :
  In k (group_keys data) -> group data k <> [].
Proof.
  intros Hk. apply group_keys_In, in_map_iff in Hk.
  destruct Hk as [r [Hr1 Hr2]].
  assert (H : In r (group data k)).
  { unfold group. apply filter_In. split; [exact Hr2|].
    now apply key_eqb_eq. }
  intros E. rewrite E in H. destruct H.
Qed.
End AggregationMore.

(** ** float64 rounding keeps the order *)

Lemma round_half_even_cases (n d : Z) :
  0 < d ->
  let m := n / d in
  let r := n mod d in
  (round_half_even n d = m /\ (2 * r < d \/ (2 * r = d /\ Z.even m = true)))
  \/ (round_half_even n d = m + 1
      /\ (d < 2 * r \/ (2 * r = d /\ Z.even m = false))).
Proof.
  intros Hd m r. unfold round_half_even. fold m. fold r.
  destruct (Z.ltb_spec (2 * r) d) as [H1|H1]; [left; auto|].
  destruct (Z.ltb_spec d (2 * r)) as [H2|H2]; [right; auto|].
  assert (E : 2 * r = d) by lia.
  destruct (Z.even m) eqn:Ev; [left | right]; auto.
Qed.

Lemma round_half_even_lower (n d k : Z) :
  0 < d -> k * d <= n -> k <= round_half_even n d.
Proof.
  intros Hd Hk.
  assert (Hm : k <= n / d) by (apply Z.div_le_lower_bound; lia).
  destruct (round_half_even_cases n d Hd) as [[-> _]|[-> _]]; lia.
Qed.

Lemma round_half_even_upper (n d k : Z) :
  0 < d -> n <= k * d -> round_half_even n d <= k.
Proof.
  intros Hd Hk.
  pose proof (Z.div_mod n d ltac:(lia)) as Hdm.
  pose proof (Z.mod_pos_bound n d Hd) as Hr.
  destruct (round_half_even_cases n d Hd) as [[-> _]|[-> H]].
  - assert (d * (n / d) <= k * d) by lia. nia.
  - assert (n / d < k); [|lia].
    assert (d * (n / d) < k * d) by lia. nia.
Qed.

Lemma round_half_even_monotone (n1 d1 n2 d2 : Z) :
  0 < d1 -> 0 < d2 -> n1 * d2 <= n2 * d1 ->
  round_half_even n1 d1 <= round_half_even n2 d2.
Proof.
  intros H1 H2 H.
  pose proof (Z.div_mod n1 d1 ltac:(lia)) as E1.
  pose proof (Z.div_mod n2 d2 ltac:(lia)) as E2.
  pose proof (Z.mod_pos_bound n1 d1 H1) as R1.
  pose proof (Z.mod_pos_bound n2 d2 H2) as R2.
  pose proof (round_half_even_cases n1 d1 H1) as C1.
  pose proof (round_half_even_cases n2 d2 H2) as C2.
  cbv zeta in C1, C2.
  remember (n1 / d1) as m1. remember (n2 / d2) as m2.
  remember (n1 mod d1) as r1. remember (n2 mod d2) as r2.
  assert (Hm : m1 <= m2).
  { subst m2. apply Z.div_le_lower_bound; [lia|].
    assert (Hx : d1 * (d2 * m1) <= d1 * n2) by nia.
    apply Z.mul_le_mono_pos_l in Hx; lia. }
  destruct C1 as [[-> _]|[-> C1]]; destruct C2 as [[-> C2]|[-> _]]; try lia.
  destruct (Z.eq_dec m1 m2) as [Em|]; [|lia]. exfalso.
  assert (Hr : r1 * d2 <= r2 * d1) by nia.
  destruct C1 as [C1|[C1 O1]]; destruct C2 as [C2|[C2 O2]]; try nia.
  rewrite Em in O1. congruence.
Qed.

Lemma two_pow_pos (e : Z) : (0 < 2 ^ e)%Q.
Proof. apply Qpower_0_lt. reflexivity. Qed.

Lemma two_pow_Z (k : Z) : 0 <= k -> (inject_Z (2 ^ k) == 2 ^ k)%Q.
Proof. intros H. now rewrite Zpower_Qpower. Qed.

Lemma two_pow_add (a b : Z) : (2 ^ (a + b) == 2 ^ a * 2 ^ b)%Q.
Proof. apply Qpower_plus. discriminate. Qed.

Lemma Qle_div_iff (a b c : Q) :
  (0 < c)%Q -> (a <= b / c)%Q <-> (a * c <= b)%Q.
Proof.
  intros Hc. rewrite <- (Qmult_le_r a (b / c) c Hc).
  assert (E : (b / c * c == b)%Q).
  { field. intros E. rewrite E in Hc. discriminate Hc. }
  now rewrite E.
Qed.

Lemma Qlt_div_iff (a b c : Q) :
  (0 < c)%Q -> (b / c < a)%Q <-> (b < a * c)%Q.
Proof.
  intros Hc. rewrite <- (Qmult_lt_r (b / c) a c Hc).
  assert (E : (b / c * c == b)%Q).
  { field. intros E. rewrite E in Hc. discriminate Hc. }
  now rewrite E.
Qed.

Lemma inject_Z_pos (d : Z) : 0 < d -> (0 < inject_Z d)%Q.
Proof. intros H. change 0%Q with (inject_Z 0). now rewrite <- Zlt_Qlt. Qed.

Lemma Qdiv_le_iff (a b c : Q) :
  (0 < c)%Q -> (b / c <= a)%Q <-> (b <= a * c)%Q.
Proof.
  intros Hc. rewrite <- (Qmult_le_r (b / c) a c Hc).
  assert (E : (b / c * c == b)%Q).
  { field. intros E. rewrite E in Hc. discriminate Hc. }
  now rewrite E.
Qed.

Lemma inject_Z_nonzero (d : Z) : 0 < d -> ~ (inject_Z d == 0)%Q.
Proof.
  intros H E. pose proof (inject_Z_pos d H) as P. rewrite E in P.
  discriminate P.
Qed.

(** Fractions of integers compare by cross-multiplication. *)
Lemma Zfrac_le (n1 d1 n2 d2 : Z) :
  0 < d1 -> 0 < d2 ->
  (inject_Z n1 / inject_Z d1 <= inject_Z n2 / inject_Z d2)%Q ->
  n1 * d2 <= n2 * d1.
Proof.
  intros H1 H2 H.
  apply (proj1 (Qdiv_le_iff _ _ _ (inject_Z_pos _ H1))) in H.
  setoid_replace (inject_Z n2 / inject_Z d2 * inject_Z d1)%Q
    with (inject_Z n2 * inject_Z d1 / inject_Z d2)%Q in H
    by (field; now apply inject_Z_nonzero).
  apply (proj1 (Qle_div_iff _ _ _ (inject_Z_pos _ H2))) in H.
  rewrite <- !inject_Z_mult in H. now rewrite <- Zle_Qle in H.
Qed.

Lemma ldexp_value (m e : Z) : (ldexp m e == inject_Z m * 2 ^ e)%Q.
Proof.
  unfold ldexp. destruct (Z.leb_spec 0 e) as [H|H].
  - rewrite inject_Z_mult, two_pow_Z by lia. reflexivity.
  - rewrite Qmake_Qdiv, Z2Pos.id by (apply Z.pow_pos_nonneg; lia).
    rewrite two_pow_Z by lia. rewrite Qpower_opp. unfold Qdiv.
    rewrite Qinv_involutive. reflexivity.
Qed.

Lemma scaled_pos (e n d : Z) : 0 < d -> 0 < snd (scaled e n d).
Proof.
  intros H. unfold scaled. destruct (Z.leb_spec 0 e); simpl; [|exact H].
  apply Z.mul_pos_pos; [exact H | apply Z.pow_pos_nonneg; lia].
Qed.

Lemma scaled_value (e n d : Z) :
  0 < d ->
  (inject_Z (fst (scaled e n d)) / inject_Z (snd (scaled e n d))
   == inject_Z n / inject_Z d / 2 ^ e)%Q.
Proof.
  intros H. pose proof (inject_Z_pos d H) as Hd.
  pose proof (two_pow_pos e) as He.
  assert (Hd' : ~ (inject_Z d == 0)%Q).
  { intros E. rewrite E in Hd. discriminate Hd. }
  assert (He' : ~ (2 ^ e == 0)%Q).
  { intros E. rewrite E in He. discriminate He. }
  unfold scaled. destruct (Z.leb_spec 0 e) as [H0|H0]; simpl.
  - rewrite inject_Z_mult, two_pow_Z by lia. field. split; assumption.
  - rewrite inject_Z_mult, two_pow_Z by lia. rewrite Qpower_opp.
    field. split; assumption.
Qed.

Lemma pow2_le_spec (e n d : Z) :
  0 < d ->
  pow2_le e n d = true <-> (2 ^ e <= inject_Z n / inject_Z d)%Q.
Proof.
  intros Hd. rewrite (Qle_div_iff _ _ _ (inject_Z_pos d Hd)).
  unfold pow2_le. destruct (Z.leb_spec 0 e) as [He|He].
  - rewrite Z.leb_le, Zle_Qle, inject_Z_mult, two_pow_Z by lia.
    rewrite Qmult_comm. reflexivity.
  - rewrite Z.leb_le, Zle_Qle, inject_Z_mult, two_pow_Z by lia.
    rewrite Qpower_opp.
    change (inject_Z n * / 2 ^ e)%Q with (inject_Z n / 2 ^ e)%Q.
    rewrite (Qle_div_iff _ _ _ (two_pow_pos e)).
    rewrite Qmult_comm. reflexivity.
Qed.

Lemma log2_bounds (n : Z) :
  0 < n ->
  (2 ^ Z.log2 n <= inject_Z n)%Q /\ (inject_Z n < 2 ^ (Z.log2 n + 1))%Q.
Proof.
  intros H. destruct (Z.log2_spec n H) as [L U].
  pose proof (Z.log2_nonneg n) as P.
  split.
  - rewrite <- two_pow_Z by lia. now rewrite <- Zle_Qle.
  - rewrite <- two_pow_Z by lia. now rewrite <- Zlt_Qlt.
Qed.

(** [ilog2 n d] is the binary exponent of [n / d]. *)
Lemma ilog2_spec (n d : Z) :
  0 < n -> 0 < d ->
  (2 ^ ilog2 n d <= inject_Z n / inject_Z d)%Q
  /\ (inject_Z n / inject_Z d < 2 ^ (ilog2 n d + 1))%Q.
Proof.
  intros Hn Hd.
  destruct (log2_bounds n Hn) as [Ln Un].
  destruct (log2_bounds d Hd) as [Ld Ud].
  pose proof (inject_Z_pos d Hd) as Pd.
  unfold ilog2. cbv zeta.
  set (a := Z.log2 n) in *. set (b := Z.log2 d) in *.
  destruct (pow2_le (a - b) n d) eqn:P.
  - split; [now apply pow2_le_spec|].
    apply (proj2 (Qlt_div_iff _ _ _ Pd)).
    apply Qlt_le_trans with (2 ^ (a + 1))%Q; [exact Un|].
    replace (a + 1) with ((a - b + 1) + b) by lia.
    rewrite two_pow_add.
    apply Qmult_le_l; [apply two_pow_pos | exact Ld].
  - split.
    + apply (proj2 (Qle_div_iff _ _ _ Pd)).
      apply Qle_trans with (2 ^ a)%Q; [|exact Ln].
      replace a with ((a - b - 1) + (b + 1)) at 2 by lia.
      rewrite two_pow_add.
      apply Qmult_le_l; [apply two_pow_pos | now apply Qlt_le_weak].
    + replace (a - b - 1 + 1) with (a - b) by lia.
      apply Qnot_le_lt. intros C.
      apply (pow2_le_spec (a - b) n d Hd) in C. congruence.
Qed.

Lemma ilog2_monotone (n1 d1 n2 d2 : Z) :
  0 < n1 -> 0 < d1 -> 0 < n2 -> 0 < d2 ->
  (inject_Z n1 / inject_Z d1 <= inject_Z n2 / inject_Z d2)%Q ->
  ilog2 n1 d1 <= ilog2 n2 d2.
Proof.
  intros Hn1 Hd1 Hn2 Hd2 H.
  destruct (ilog2_spec n1 d1 Hn1 Hd1) as [L1 _].
  destruct (ilog2_spec n2 d2 Hn2 Hd2) as [_ U2].
  destruct (Z.le_gt_cases (ilog2 n1 d1) (ilog2 n2 d2)) as [|C]; [assumption|].
  exfalso.
  assert (P : (2 ^ (ilog2 n2 d2 + 1) <= 2 ^ ilog2 n1 d1)%Q).
  { apply Qpower_le_compat_l; [lia | discriminate]. }
  apply (Qlt_irrefl (inject_Z n2 / inject_Z d2)).
  apply Qlt_le_trans with (1 := U2).
  apply Qle_trans with (1 := P).
  apply Qle_trans with (1 := L1). exact H.
Qed.

(** The significand of a positive [n / d] has 53 bits ([2^53] when the
    rounding carries). *)
Lemma scaled_bounds (n d : Z) :
  0 < n -> 0 < d ->
  let e := ilog2 n d - 52 in
  2 ^ 52 * snd (scaled e n d) <= fst (scaled e n d)
  /\ fst (scaled e n d) <= 2 ^ 53 * snd (scaled e n d).
Proof.
  intros Hn Hd e.
  destruct (ilog2_spec n d Hn Hd) as [L U].
  pose proof (scaled_pos e n d Hd) as Ps.
  pose proof (scaled_value e n d Hd) as V.
  pose proof (two_pow_pos e) as Pe.
  split.
  - assert (B : (inject_Z (2 ^ 52) / inject_Z 1
                 <= inject_Z (fst (scaled e n d))
                    / inject_Z (snd (scaled e n d)))%Q).
    { rewrite V. rewrite two_pow_Z by lia.
      apply (proj2 (Qle_div_iff _ _ _ Pe)).
      unfold Qdiv. change (/ inject_Z 1)%Q with 1%Q. rewrite Qmult_1_r.
      rewrite <- two_pow_add.
      replace (52 + e) with (ilog2 n d) by (unfold e; lia). exact L. }
    apply Zfrac_le in B; [lia | lia | exact Ps].
  - assert (B : (inject_Z (fst (scaled e n d))
                 / inject_Z (snd (scaled e n d))
                 <= inject_Z (2 ^ 53) / inject_Z 1)%Q).
    { rewrite V. rewrite two_pow_Z by lia. apply Qlt_le_weak.
      apply (proj2 (Qlt_div_iff _ _ _ Pe)).
      unfold Qdiv. change (/ inject_Z 1)%Q with 1%Q. rewrite Qmult_1_r.
      rewrite <- two_pow_add.
      replace (53 + e) with (ilog2 n d + 1) by (unfold e; lia). exact U. }
    apply Zfrac_le in B; [lia | exact Ps | lia].
Qed.

Lemma significand_bounds (n d : Z) :
  0 < n -> 0 < d ->
  let e := ilog2 n d - 52 in
  2 ^ 52 <= round_half_even (fst (scaled e n d)) (snd (scaled e n d)) <= 2 ^ 53.
Proof.
  intros Hn Hd e.
  destruct (scaled_bounds n d Hn Hd) as [L U]. fold e in L, U.
  pose proof (scaled_pos e n d Hd) as Ps.
  split.
  - now apply round_half_even_lower.
  - now apply round_half_even_upper.
Qed.

Lemma round53_pos_value (n d : Z) :
  let e := ilog2 n d - 52 in
  (round53_pos n d
   == inject_Z (round_half_even (fst (scaled e n d)) (snd (scaled e n d)))
      * 2 ^ e)%Q.
Proof. intros e. unfold round53_pos. fold e. apply ldexp_value. Qed.

Lemma round53_pos_positive (n d : Z) :
  0 < n -> 0 < d -> (0 < round53_pos n d)%Q.
Proof.
  intros Hn Hd. rewrite round53_pos_value.
  destruct (significand_bounds n d Hn Hd) as [L _]. cbv zeta in L.
  apply Qmult_lt_0_compat; [|apply two_pow_pos].
  apply inject_Z_pos.
  apply Z.lt_le_trans with (2 := L). reflexivity.
Qed.

(** Rounding keeps the order of positive fractions. *)
Lemma round53_pos_monotone (n1 d1 n2 d2 : Z) :
  0 < n1 -> 0 < d1 -> 0 < n2 -> 0 < d2 ->
  (inject_Z n1 / inject_Z d1 <= inject_Z n2 / inject_Z d2)%Q ->
  (round53_pos n1 d1 <= round53_pos n2 d2)%Q.
Proof.
  intros Hn1 Hd1 Hn2 Hd2 H.
  rewrite !round53_pos_value. cbv zeta.
  pose proof (ilog2_monotone n1 d1 n2 d2 Hn1 Hd1 Hn2 Hd2 H) as HE.
  destruct (significand_bounds n1 d1 Hn1 Hd1) as [_ U1].
  destruct (significand_bounds n2 d2 Hn2 Hd2) as [L2 _].
  cbv zeta in U1, L2.
  set (e1 := ilog2 n1 d1 - 52) in *. set (e2 := ilog2 n2 d2 - 52) in *.
  destruct (Z.eq_dec e1 e2) as [E|NE].
  - rewrite E. apply Qmult_le_compat_r; [|apply Qlt_le_weak, two_pow_pos].
    rewrite <- Zle_Qle.
    apply round_half_even_monotone; try now apply scaled_pos.
    apply Zfrac_le; try now apply scaled_pos.
    rewrite !scaled_value by assumption.
    unfold Qdiv at 1 3. apply Qmult_le_compat_r; [exact H|].
    apply Qlt_le_weak, Qinv_lt_0_compat, two_pow_pos.
  - apply Qle_trans with (inject_Z (2 ^ 53) * 2 ^ e1)%Q.
    { apply Qmult_le_compat_r; [|apply Qlt_le_weak, two_pow_pos].
      now rewrite <- Zle_Qle. }
    apply Qle_trans with (inject_Z (2 ^ 52) * 2 ^ e2)%Q.
    2:{ apply Qmult_le_compat_r; [|apply Qlt_le_weak, two_pow_pos].
        now rewrite <- Zle_Qle. }
    rewrite !two_pow_Z by lia. rewrite <- !two_pow_add.
    apply Qpower_le_compat_l; [lia | discriminate].
Qed.

Lemma Qmake_pos_div (p q : positive) :
  (Zpos p # q == inject_Z (Zpos p) / inject_Z (Zpos q))%Q.
Proof. apply Qmake_Qdiv. Qed.

(** Rounding to float64 keeps the order. *)
Lemma round53_monotone (a b : Q) : (a <= b)%Q -> (round53 a <= round53 b)%Q.
Proof.
  destruct a as [na da], b as [nb db]. intros H.
  unfold round53. simpl Qnum. simpl Qden.
  destruct na as [|pa|pa], nb as [|pb|pb].
  - apply Qle_refl.
  - apply Qlt_le_weak, round53_pos_positive; reflexivity.
  - exfalso. apply H. reflexivity.
  - exfalso. apply H. reflexivity.
  - apply round53_pos_monotone; try reflexivity.
    now rewrite <- !Qmake_pos_div.
  - exfalso. apply H. reflexivity.
  - apply Qle_trans with 0%Q.
    + apply (Qopp_le_compat 0), Qlt_le_weak, round53_pos_positive;
        reflexivity.
    + apply Qle_refl.
  - apply Qle_trans with 0%Q.
    + apply (Qopp_le_compat 0), Qlt_le_weak, round53_pos_positive;
        reflexivity.
    + apply Qlt_le_weak, round53_pos_positive; reflexivity.
  - apply Qopp_le_compat.
    apply round53_pos_monotone; try reflexivity.
    rewrite <- !Qmake_pos_div.
    unfold Qle in *. simpl Qnum in *. simpl Qden in *.
    change (Z.neg pa) with (- Z.pos pa) in H.
    change (Z.neg pb) with (- Z.pos pb) in H. lia.
Qed.

(** 0, 1 and 100 are float64 numbers. *)
Lemma round53_exact_0_1_100 :
  (round53 0 == 0)%Q /\ (round53 1 == 1)%Q /\ (round53 100 == 100)%Q.
Proof. repeat split. Qed.

(** ** Rates as percentages *)

Lemma Qmult_le_nonneg (a b : Q) : (0 <= a)%Q -> (0 <= b)%Q -> (0 <= a * b)%Q.
Proof. intros Ha Hb. rewrite <- (Qmult_0_l b). now apply Qmult_le_compat_r. Qed.


Lemma fold_left_Qplus (l : list Q) (a : Q) :
  (fold_left Qplus l a == a + fold_left Qplus l 0)%Q.
Proof.
  revert a. induction l as [|x l IH]; intros a; simpl.
  - ring.
  - rewrite (IH (a + x)%Q), (IH (0 + x)%Q). ring.
Qed.

Lemma Qsum_cons (x : Q) (l : list Q) : (Qsum (x :: l) == x + Qsum l)%Q.
Proof. unfold Qsum. simpl. rewrite fold_left_Qplus. ring. Qed.


Lemma Qsum_bounds (lo hi : Q) (l : list Q) :
  Forall (fun q => (lo <= q)%Q /\ (q <= hi)%Q) l ->
  (lo * inject_Z (Z.of_nat (List.length l)) <= Qsum l)%Q
  /\ (Qsum l <= hi * inject_Z (Z.of_nat (List.length l)))%Q.
Proof.
  induction 1 as [|x l [Hx0 Hx1] Hl [IH0 IH1]].
  - split; simpl; rewrite Qmult_0_r; apply Qle_refl.
  - rewrite Qsum_cons. cbn [List.length]. rewrite Nat2Z.inj_succ.
    unfold Z.succ. rewrite inject_Z_plus. split.
    + setoid_replace (lo * (inject_Z (Z.of_nat (List.length l)) + inject_Z 1))%Q
        with (lo + lo * inject_Z (Z.of_nat (List.length l)))%Q by ring.
      now apply Qplus_le_compat.
    + setoid_replace (hi * (inject_Z (Z.of_nat (List.length l)) + inject_Z 1))%Q
        with (hi + hi * inject_Z (Z.of_nat (List.length l)))%Q by ring.
      now apply Qplus_le_compat.
Qed.

(** The rational mean of cells lies between their bounds. *)
Lemma exact_mean_within (lo hi : Q) (l : list Q) :
  l <> [] ->
  Forall (fun q => (lo <= q)%Q /\ (q <= hi)%Q) l ->
  (lo <= float_mean (GroupMean := exact_mean) l)%Q
  /\ (float_mean (GroupMean := exact_mean) l <= hi)%Q.
Proof.
  intros Hne H. simpl. apply Qsum_bounds in H. destruct H as [H0 H1].
  destruct l as [|x l]; [contradiction|].
  assert (Hpos : (0 < inject_Z (Z.of_nat (List.length (x :: l))))%Q).
  { change 0%Q with (inject_Z 0). rewrite <- Zlt_Qlt. simpl. lia. }
  split.
  - apply Qle_shift_div_l; [exact Hpos | exact H0].
  - apply Qle_shift_div_r; [exact Hpos | exact H1].
Qed.

Section Percentages.
Context {fl : Binary64} {gm : GroupMean}.
(** Rounding to nearest keeps the order and leaves 0, 1 and 100, which are
    float64 numbers, unchanged: [round53_monotone] and
    [round53_exact_0_1_100] show it of [round53]. *)
Hypothesis rnd_monotone : forall a b : Q, (a <= b)%Q -> (rnd a <= rnd b)%Q.
Hypothesis rnd_0 : (rnd 0 == 0)%Q.
Hypothesis rnd_1 : (rnd 1 == 1)%Q.
Hypothesis rnd_100 : (rnd 100 == 100)%Q.
(** The mean of cells between 0 and 100 is between 0 and 100. *)
Hypothesis mean_percent :
  forall l : list Q,
    l <> [] ->
    Forall (fun q => (0 <= q)%Q /\ (q <= 100)%Q) l ->
    (0 <= float_mean l)%Q /\ (float_mean l <= 100)%Q.

Lemma rnd_ge_0 (x : Q) : (0 <= x)%Q -> (0 <= rnd x)%Q.
Proof.
  intros H. apply Qle_trans with (rnd 0).
  - rewrite rnd_0. apply Qle_refl.
  - now apply rnd_monotone.
Qed.

Lemma rnd_ge_1 (x : Q) : (1 <= x)%Q -> (1 <= rnd x)%Q.
Proof.
  intros H. apply Qle_trans with (rnd 1).
  - rewrite rnd_1. apply Qle_refl.
  - now apply rnd_monotone.
Qed.

Lemma rnd_le_1 (x : Q) : (x <= 1)%Q -> (rnd x <= 1)%Q.
Proof.
  intros H. apply Qle_trans with (rnd 1).
  - now apply rnd_monotone.
  - rewrite rnd_1. apply Qle_refl.
Qed.

Lemma rnd_le_100 (x : Q) : (x <= 100)%Q -> (rnd x <= 100)%Q.
Proof.
  intros H. apply Qle_trans with (rnd 100).
  - now apply rnd_monotone.
  - rewrite rnd_100. apply Qle_refl.
Qed.

Lemma rate_bounds (n d : Z) :
  0 <= n <= d -> (0 <= rate n d)%Q /\ (rate n d <= 100)%Q.
Proof.
  intros H. unfold rate.
  destruct (d >? 0) eqn:E; [|split; discriminate].
  apply Z.gtb_lt in E. unfold fmul, fdiv, of_int.
  set (A := rnd (inject_Z n)). set (B := rnd (inject_Z d)).
  assert (HA0 : (0 <= A)%Q).
  { apply rnd_ge_0. change 0%Q with (inject_Z 0). rewrite <- Zle_Qle. lia. }
  assert (HAB : (A <= B)%Q).
  { apply rnd_monotone. rewrite <- Zle_Qle. lia. }
  assert (HB1 : (1 <= B)%Q).
  { apply rnd_ge_1. change 1%Q with (inject_Z 1). rewrite <- Zle_Qle. lia. }
  assert (HB0 : (0 < B)%Q).
  { apply Qlt_le_trans with 1%Q; [reflexivity | exact HB1]. }
  assert (Hq0 : (0 <= rnd (A / B))%Q).
  { apply rnd_ge_0, Qle_shift_div_l; [exact HB0|]. now rewrite Qmult_0_l. }
  assert (Hq1 : (rnd (A / B) <= 1)%Q).
  { apply rnd_le_1, Qle_shift_div_r; [exact HB0|]. now rewrite Qmult_1_l. }
  split.
  - apply rnd_ge_0, Qmult_le_nonneg; [exact Hq0 | discriminate].
  - apply rnd_le_100. apply Qle_trans with (1 * 100)%Q.
    + apply Qmult_le_compat_r; [exact Hq1 | discriminate].
    + apply Qle_refl.
Qed.

(** X7: for a rounding that keeps the order and leaves 0, 1 and 100
    unchanged, and a mean that keeps cells between 0 and 100 between 0 and
    100: when every raw record has 0 <= Deaths <= Confirmed and
    0 <= Recovered <= Confirmed, every row of the aggregated table has its CFR
    and its RecoveryRate between 0 and 100. *)
Theorem grouped_rates_are_percentages (raw : list raw_record) :
  Forall (fun r => 0 <= raw_Deaths r <= raw_Confirmed r
                   /\ 0 <= raw_Recovered r <= raw_Confirmed r) raw ->
  Forall (fun g => ((0 <= CFR g)%Q /\ (CFR g <= 100)%Q)
                   /\ ((0 <= RecoveryRate g)%Q /\ (RecoveryRate g <= 100)%Q))
         (grouped_data raw).
Proof.
  intros Hraw. unfold grouped_data, groupby_agg.
  apply Forall_map, Forall_forall. intros k Hk. simpl.
  assert (Hrows : forall r, In r (group (clean raw) k) ->
            ((0 <= CFR r)%Q /\ (CFR r <= 100)%Q)
            /\ ((0 <= RecoveryRate r)%Q /\ (RecoveryRate r <= 100)%Q)).
  { intros r Hr. unfold group in Hr. apply filter_In in Hr.
    destruct Hr as [Hr _]. unfold clean in Hr. apply in_map_iff in Hr.
    destruct Hr as [rr [<- Hrr]]. rewrite Forall_forall in Hraw.
    destruct (Hraw rr Hrr) as [Hd Hrec]. simpl.
    split; now apply rate_bounds. }
  assert (Hne : group (clean raw) k <> []) by now apply group_nonempty.
  split; apply mean_percent;
    try (intros E; apply map_eq_nil in E; contradiction);
    apply Forall_map, Forall_forall; intros r Hr; apply (Hrows r Hr).
Qed.
End Percentages.

Lemma grouped_rates_are_percentages_witness :
  Forall (fun g => ((0 <= CFR g)%Q /\ (CFR g <= 100)%Q)
                   /\ ((0 <= RecoveryRate g)%Q /\ (RecoveryRate g <= 100)%Q))
         (grouped_data (fl := binary64) (gm := exact_mean) sample_raw).
Proof.
  apply (grouped_rates_are_percentages (fl := binary64) (gm := exact_mean)).
  - exact round53_monotone.
  - apply round53_exact_0_1_100.
  - apply round53_exact_0_1_100.
  - apply round53_exact_0_1_100.
  - intros l Hne H. now apply exact_mean_within.
  - repeat constructor; simpl; lia.
Defined.

(** * Further properties of the callback and of the density plot *)

Lemma linspace_200_within (a b : Q) :
  (a <= b)%Q ->
  Forall (fun x => (a <= x)%Q /\ (x <= b)%Q) (linspace a b 200).
Proof.
  intros Hab. unfold linspace. apply Forall_map, Forall_forall.
  intros i Hi. apply in_seq in Hi.
  change (inject_Z (Z.of_nat (200 - 1))) with (199 # 1)%Q.
  set (t := ((b - a) / (199 # 1))%Q).
  assert (Ht : (0 <= t)%Q).
  { unfold t. apply Qle_shift_div_l; [reflexivity|].
    rewrite Qmult_0_l. unfold Qminus. rewrite <- (Qplus_opp_r a).
    apply Qplus_le_compat; [exact Hab | apply Qle_refl]. }
  assert (Hi0 : (0 <= inject_Z (Z.of_nat i))%Q).
  { change 0%Q with (inject_Z 0). rewrite <- Zle_Qle. lia. }
  assert (Hi1 : (inject_Z (Z.of_nat i) <= 199 # 1)%Q).
  { change (199 # 1)%Q with (inject_Z 199). rewrite <- Zle_Qle. lia. }
  split.
  - rewrite <- (Qplus_0_r a) at 1.
    apply Qplus_le_compat; [apply Qle_refl | now apply Qmult_le_nonneg].
  - setoid_replace b with (a + (199 # 1) * t)%Q at 1 by (unfold t; field).
    apply Qplus_le_compat; [apply Qle_refl|].
    now apply Qmult_le_compat_r.
Qed.

Section CallbackMore.
Context {px : Plotly}.
Variable gaussian_kde : list Q -> result (Q -> Q).

Lemma px_build_raise (call : figure) (e : exn) :
  px_build call = Raise e <-> px_error call = Some e.
Proof.
  unfold px_build. destruct (px_error call) as [e'|].
  - split; intros H; injection H as <-; reflexivity.
  - split; discriminate.
Qed.

Lemma px_build_ok (call f : figure) : px_build call = Ok f -> f = call.
Proof.
  unfold px_build. destruct (px_error call); [discriminate|].
  intros H. now injection H as <-.
Qed.

Lemma create_density_plot_raise (data : table) (e : exn) :
  create_density_plot gaussian_kde data = Raise e ->
  (exists call, px_error call = Some e /\ plotted call = [])
  \/ ((2 <= List.length data)%nat /\ gaussian_kde (map CFR data) = Raise e).
Proof.
  unfold create_density_plot, dropna. rewrite length_map.
  destruct (Nat.ltb_spec 1 (List.length data)) as [H|H].
  - destruct data as [|r data]; [simpl in H; lia|].
    cbn [map array_min array_max].
    destruct (gaussian_kde (CFR r :: map CFR data)) as [k|e'];
      cbn [bind_result].
    + intros Hb. apply px_build_raise in Hb. left. eexists. split; [exact Hb|].
      reflexivity.
    + intros Hb. injection Hb as <-. right. split; [lia | reflexivity].
  - intros Hb. apply px_build_raise in Hb. left. eexists. split; [exact Hb|].
    reflexivity.
Qed.

Lemma create_density_plot_raise_kde (data : table) (e : exn) :
  (2 <= List.length data)%nat -> gaussian_kde (map CFR data) = Raise e ->
  create_density_plot gaussian_kde data = Raise e.
Proof.
  intros Hlen Hkde. unfold create_density_plot, dropna. rewrite length_map.
  destruct (Nat.ltb_spec 1 (List.length data)) as [_|H]; [|lia].
  rewrite Hkde. reflexivity.
Qed.

Lemma build_charts_raise (data : table) (e : exn) :
  build_charts gaussian_kde data = Raise e ->
  (exists call, px_error call = Some e /\ incl (plotted call) data)
  \/ ((2 <= List.length data)%nat /\ gaussian_kde (map CFR data) = Raise e).
Proof.
  unfold build_charts, create_line_chart, create_scatter_plot,
    create_bar_chart, create_box_plot, create_faceted_plot.
  intros H.
  repeat match type of H with
         | bind_result (px_build ?c) _ = _ =>
             let E := fresh "E" in
             destruct (px_build c) as [?|?] eqn:E; cbn [bind_result] in H;
             [clear E
             |injection H as <-; apply px_build_raise in E; left;
              exists c; split; [exact E|]; simpl;
              first [apply incl_refl | apply line_rows_incl
                    | apply bar_rows_incl]]
         end.
  destruct (create_density_plot gaussian_kde data) as [d|e'] eqn:E;
    cbn [bind_result] in H; [discriminate|].
  injection H as <-. apply create_density_plot_raise in E.
  destruct E as [[call [H1 H2]]|E]; [left|right; exact E].
  exists call. split; [exact H1|]. rewrite H2. apply incl_nil_l.
Qed.

Lemma build_charts_tolerant (data : table) :
  (forall call, px_error call = None) ->
  build_charts gaussian_kde data
  = bind_result (create_density_plot gaussian_kde data)
      (fun d =>
         Ok (px_line (line_rows data) "Country/Region" ["Deaths"; "Confirmed"]
                     "Top 5 Countries: Deaths and Confirmed Cases" true,
             px_scatter data "Confirmed" "Deaths" (Some "WHO Region") None 0
                        "Confirmed vs Deaths with WHO Region Colors",
             px_bar (bar_rows data) "RecoveryRate" "Country/Region" "h"
                    "RecoveryRate" "Top 10 Countries by Recovery Rate",
             px_box data "WHO Region" "Deaths"
                    "Deaths Distribution by WHO Region",
             px_scatter data "New cases" "New deaths" None (Some "WHO Region")
                        3 "New Cases vs New Deaths by WHO Region",
             d)).
Proof.
  intros Htol.
  unfold build_charts, create_line_chart, create_scatter_plot,
    create_bar_chart, create_box_plot, create_faceted_plot, px_build.
  rewrite !Htol. reflexivity.
Qed.

(** X8: when [grouped_data] refers to the table [g], an exception of the
    callback comes from [plotly.express], refusing a call given rows of the
    filtered frame only, or from the estimator, raising on the CFR values of a
    filtered frame of two or more rows: no reference is dangling and no minimum
    or maximum is taken of an empty array.  With a [plotly.express] that
    refuses no call, the callback raises exactly when the filtered frame has
    two or more rows and the estimator raises. *)
Theorem update_charts_raises_iff
        (s : store) (g : table) (sel : string) (rng : Z * Z) (e : exn) :
  nth_error s grouped_data_ref = Some g ->
  (fst (update_charts gaussian_kde sel rng s) = Raise e ->
   (exists call, px_error call = Some e
                 /\ incl (plotted call) (filter_engine g sel rng))
   \/ ((2 <= List.length (filter_engine g sel rng))%nat
       /\ gaussian_kde (map CFR (filter_engine g sel rng)) = Raise e))
  /\ ((forall call, px_error call = None) ->
      (fst (update_charts gaussian_kde sel rng s) = Raise e
       <-> (2 <= List.length (filter_engine g sel rng))%nat
           /\ gaussian_kde (map CFR (filter_engine g sel rng)) = Raise e)).
Proof.
  intros Hg. destruct (update_charts_run gaussian_kde s g sel rng Hg)
    as [fresh Hrun].
  rewrite Hrun. simpl. split; [apply build_charts_raise|].
  intros Htol. split.
  - intros H. apply build_charts_raise in H.
    destruct H as [[call [H _]]|H]; [|exact H].
    rewrite Htol in H. discriminate.
  - intros [Hlen Hkde]. rewrite (build_charts_tolerant _ Htol).
    now rewrite (create_density_plot_raise_kde _ e Hlen Hkde).
Qed.

(** X9: the figures of a callback do not depend on the callbacks run
    before it: after any earlier callback, a callback returns what it returns
    on the store the earlier one started from. *)
Theorem update_charts_history_independent
        (s : store) (g : table) (sel1 sel2 : string) (rng1 rng2 : Z * Z) :
  nth_error s grouped_data_ref = Some g ->
  fst (update_charts gaussian_kde sel2 rng2
         (snd (update_charts gaussian_kde sel1 rng1 s)))
  = fst (update_charts gaussian_kde sel2 rng2 s).
Proof.
  intros Hg.
  destruct (update_charts_run gaussian_kde s g sel1 rng1 Hg) as [f1 H1].
  rewrite H1. simpl.
  destruct (update_charts_run gaussian_kde (s ++ f1) g sel2 rng2
              (nth_error_grows s f1 _ g Hg)) as [f2 H2].
  destruct (update_charts_run gaussian_kde s g sel2 rng2 Hg) as [f3 H3].
  rewrite H2, H3. reflexivity.
Qed.


(** X10: when the callback returns its six figures, the scatter plot, the
    box plot and the faceted plot are given exactly the filtered frame, and the
    line chart and the bar chart rows of it only; so every row plotted is a row
    of the aggregated table whose Deaths lies in the range and whose country is
    the selection, unless the selection is "all". *)
Theorem update_charts_plots_filtered_rows
        (s : store) (g : table) (sel : string) (lo hi : Z)
        (line_fig scatter_fig bar_fig box_fig faceted_fig density_fig : figure) :
  nth_error s grouped_data_ref = Some g ->
  fst (update_charts gaussian_kde sel (lo, hi) s)
  = Ok (line_fig, scatter_fig, bar_fig, box_fig, faceted_fig, density_fig) ->
  plotted scatter_fig = filter_engine g sel (lo, hi)
  /\ plotted box_fig = filter_engine g sel (lo, hi)
  /\ plotted faceted_fig = filter_engine g sel (lo, hi)
  /\ incl (plotted line_fig) (filter_engine g sel (lo, hi))
  /\ incl (plotted bar_fig) (filter_engine g sel (lo, hi))
  /\ forall r,
       In r (plotted line_fig ++ plotted scatter_fig ++ plotted bar_fig
             ++ plotted box_fig ++ plotted faceted_fig) ->
       In r g /\ lo <= Deaths r <= hi /\ (Country r = sel \/ sel = "all").
Proof.
  intros Hg Hok.
  destruct (update_charts_run gaussian_kde s g sel (lo, hi) Hg)
    as [fresh Hrun].
  rewrite Hrun in Hok. simpl in Hok.
  unfold build_charts, create_line_chart, create_scatter_plot,
    create_bar_chart, create_box_plot, create_faceted_plot in Hok.
  repeat match type of Hok with
         | bind_result (px_build ?c) _ = _ =>
             let E := fresh "E" in
             destruct (px_build c) as [?|?] eqn:E; cbn [bind_result] in Hok;
             [apply px_build_ok in E | discriminate]
         end.
  destruct (create_density_plot gaussian_kde _) as [d|e];
    cbn [bind_result] in Hok; [|discriminate].
  injection Hok as <- <- <- <- <- <-. subst. simpl plotted.
  assert (Hl := line_rows_incl (filter_engine g sel (lo, hi))).
  assert (Hb := bar_rows_incl (filter_engine g sel (lo, hi))).
  repeat (split; [first [reflexivity | assumption]|]).
  intros r Hr. apply filter_engine_In.
  repeat (apply in_app_or in Hr; destruct Hr as [Hr|Hr]); auto.
Qed.

(** X11: with two or more rows and an estimator for their CFR values, the
    density figure is the call of [px.area] over 200 abscissas with as many
    ordinates, the estimator's values at the abscissas; every abscissa lies
    between the least and the greatest CFR of the frame, both of which are CFR
    values of rows of the frame. *)
Theorem density_curve_within_range (data : table) (kde : Q -> Q) :
  (2 <= List.length data)%nat ->
  gaussian_kde (map CFR data) = Ok kde ->
  exists (lo hi : Q) (xs : list Q),
    create_density_plot gaussian_kde data
    = px_build (px_area xs (map kde xs)
                        "Distribution of Case Fatality Rates (Density Plot)")
    /\ List.length xs = 200%nat
    /\ List.length (map kde xs) = 200%nat
    /\ In lo (map CFR data) /\ In hi (map CFR data)
    /\ Forall (fun v => (lo <= v)%Q /\ (v <= hi)%Q) (map CFR data)
    /\ Forall (fun x => (lo <= x)%Q /\ (x <= hi)%Q) xs.
Proof.
  intros Hlen Hkde.
  destruct (create_density_plot_curve gaussian_kde data kde Hlen Hkde)
    as (lo & hi & Hfig & Hlo & Hlo' & Hhi & Hhi' & Hn & _).
  exists lo, hi, (linspace lo hi 200).
  split; [exact Hfig|]. split; [exact Hn|].
  split; [now rewrite length_map|]. split; [exact Hlo|]. split; [exact Hhi|].
  split.
  - rewrite Forall_forall in *. intros v Hv. split; auto.
  - apply linspace_200_within.
    rewrite Forall_forall in Hlo'. now apply Hlo'.
Qed.
End CallbackMore.

(** With forty-six regions the faceted scatter is refused and the callback
    raises [ValueError]; with a [plotly.express] that refuses nothing and an
    estimator that refuses, it raises the estimator's exception. *)
Lemma update_charts_raises_iff_witness :
  (fst (update_charts (px := facet_limited) constant_kde "all" (0, 10)
                      [forty_six_regions])
   = Raise ValueError
   /\ ((exists call,
          px_error (Plotly := facet_limited) call = Some ValueError
          /\ incl (plotted call)
                  (filter_engine forty_six_regions "all" (0, 10)))
       \/ ((2 <= List.length (filter_engine forty_six_regions "all"
                                              (0%Z, 10%Z)))%nat
           /\ constant_kde (map CFR (filter_engine forty_six_regions
                                                   "all" (0, 10)))
              = Raise ValueError)))
  /\ fst (update_charts (px := tolerant) refusing_kde "all" (0, 200)
                        sample_store)
     = Raise LinAlgError.
Proof.
  split.
  - assert (H : fst (update_charts (px := facet_limited) constant_kde "all"
                                   (0, 10) [forty_six_regions])
                = Raise ValueError) by (vm_compute; reflexivity).
    split; [exact H|].
    exact (proj1 (update_charts_raises_iff (px := facet_limited) constant_kde
                    [forty_six_regions] forty_six_regions "all" (0, 10)
                    ValueError eq_refl) H).
  - apply (proj2 (update_charts_raises_iff (px := tolerant) refusing_kde
                    sample_store sample_grouped "all" (0, 200) LinAlgError
                    eq_refl)).
    + reflexivity.
    + split; [vm_compute; lia | reflexivity].
Defined.

Lemma update_charts_history_independent_witness :
  fst (update_charts (px := facet_limited) refusing_kde "B" (0, 10)
         (snd (update_charts (px := facet_limited) refusing_kde
                             "all" (0, 200) sample_store)))
  = fst (update_charts (px := facet_limited) refusing_kde "B" (0, 10)
                       sample_store).
Proof.
  apply (update_charts_history_independent (px := facet_limited) refusing_kde
           sample_store sample_grouped "all" "B" (0, 200) (0, 10) eq_refl).
Defined.

Lemma update_charts_plots_filtered_rows_witness :
  exists figs,
    fst (update_charts (px := facet_limited) constant_kde "all" (0, 200)
                       sample_store) = Ok figs
    /\ incl (plotted (fst (fst (fst (fst (fst figs))))))
            (filter_engine sample_grouped "all" (0, 200))
    /\ List.length (filter_engine sample_grouped "all" (0, 200)) = 3%nat.
Proof.
  destruct (fst (update_charts (px := facet_limited) constant_kde "all"
                               (0, 200) sample_store))
    as [[[[[[l sc] b] bx] f] d]|e] eqn:E; [|discriminate E].
  exists (l, sc, b, bx, f, d). split; [reflexivity|]. split; [|reflexivity].
  simpl fst.
  destruct (update_charts_plots_filtered_rows (px := facet_limited)
              constant_kde sample_store
              sample_grouped "all" 0 200 l sc b bx f d eq_refl E)
    as (_ & _ & _ & H & _).
  exact H.
Defined.

Lemma density_curve_within_range_witness :
  exists (lo hi : Q) (xs : list Q),
    create_density_plot (px := facet_limited) constant_kde sample_grouped
    = Ok (px_area xs (map (fun _ => 1%Q) xs)
                  "Distribution of Case Fatality Rates (Density Plot)")
    /\ Forall (fun x => (lo <= x)%Q /\ (x <= hi)%Q) xs.
Proof.
  destruct (density_curve_within_range (px := facet_limited) constant_kde
              sample_grouped (fun _ => 1%Q))
    as (lo & hi & xs & Hfig & _ & _ & _ & _ & _ & Hxs).
  - vm_compute. lia.
  - reflexivity.
  - exists lo, hi, xs. split; [exact Hfig | exact Hxs].
Defined.

(** * Further properties of the layout *)

Section LayoutMore.
Context {fl : Binary64} {gm : GroupMean}.

Lemma groupby_agg_nil_iff (data : table) : groupby_agg data = [] <-> data = [].
Proof.
  split; [|intros ->; reflexivity].
  intros H. destruct data as [|r data]; [reflexivity|]. exfalso.
  assert (Hk : In (key_of r) (group_keys (r :: data))).
  { apply group_keys_In. now left. }
  rewrite <- groupby_agg_keys, H in Hk. destruct Hk.
Qed.

(** X12: building the layout from the aggregated table fails exactly when
    there is no raw record, and then with [ValueError] (the maximum of the
    empty Deaths column cannot be made an integer); with at least one raw
    record the layout is built. *)
Theorem app_layout_fails_iff_no_record (raw : list raw_record) (e : exn) :
  app_layout (grouped_data raw) = Raise e <-> raw = [] /\ e = ValueError.
Proof.
  unfold grouped_data. split.
  - intros H. unfold app_layout in H.
    destruct (groupby_agg (clean raw)) as [|g t] eqn:E.
    + apply (proj1 (groupby_agg_nil_iff (clean raw))) in E. unfold clean in E.
      apply map_eq_nil in E. simpl in H. injection H as He.
      split; [exact E | now symmetry].
    + simpl in H. discriminate.
  - intros [-> ->]. reflexivity.
Qed.

End LayoutMore.

Lemma marks_count (m : Z) (v : string) :
  let marks := dict_display [(0, "0"); (10000, "10K"); (50000, "50K");
                             (100000, "100K+"); (m, v)] in
  NoDup (map fst marks)
  /\ ((m = 0 \/ m = 10000 \/ m = 50000 \/ m = 100000) ->
      List.length marks = 4%nat)
  /\ ((m <> 0 /\ m <> 10000 /\ m <> 50000 /\ m <> 100000) ->
      List.length marks = 5%nat).
Proof.
  assert (Hfixed : NoDup [0; 10000; 50000; 100000]).
  { repeat constructor; simpl; intuition discriminate. }
  unfold dict_display. cbn [fold_left fst snd dict_set Z.eqb Pos.eqb].
  destruct (Z.eqb_spec m 0) as [->|E0];
    [cbn; split; [exact Hfixed | split; [reflexivity | lia]]|].
  destruct (Z.eqb_spec m 10000) as [->|E1];
    [cbn; split; [exact Hfixed | split; [reflexivity | lia]]|].
  destruct (Z.eqb_spec m 50000) as [->|E2];
    [cbn; split; [exact Hfixed | split; [reflexivity | lia]]|].
  destruct (Z.eqb_spec m 100000) as [->|E3];
    [cbn; split; [exact Hfixed | split; [reflexivity | lia]]|].
  cbn [map fst List.length]. split; [|split; [lia | reflexivity]].
  apply (Permutation_NoDup (l := m :: [0; 10000; 50000; 100000])).
  - change [0; 10000; 50000; 100000; m] with ([0; 10000; 50000; 100000] ++ [m]).
    apply Permutation_cons_append.
  - constructor; [simpl; lia | exact Hfixed].
Qed.

(** X13: the slider never has two marks at one position.  It has four
    marks when the largest Deaths value is 0, 10000, 50000 or 100000 (the
    display's last item then replaces a fixed one) and five marks otherwise. *)
Theorem slider_marks_count (grouped : table) (L : Layout) :
  app_layout grouped = Ok L ->
  NoDup (map fst (rs_marks (slider L)))
  /\ ((rs_max (slider L) = 0 \/ rs_max (slider L) = 10000
       \/ rs_max (slider L) = 50000 \/ rs_max (slider L) = 100000) ->
      List.length (rs_marks (slider L)) = 4%nat)
  /\ ((rs_max (slider L) <> 0 /\ rs_max (slider L) <> 10000
       /\ rs_max (slider L) <> 50000 /\ rs_max (slider L) <> 100000) ->
      List.length (rs_marks (slider L)) = 5%nat).
Proof.
  unfold app_layout.
  destruct (int_max (map Deaths grouped)) as [m|e]; cbn [bind_result];
    [|discriminate].
  intros H. injection H as <-. simpl.
  apply (marks_count m (str m ++ "+")%string).
Qed.

Lemma slider_marks_count_witness :
  exists L, app_layout tied_deaths = Ok L
            /\ rs_max (slider L) = 9
            /\ List.length (rs_marks (slider L)) = 5%nat.
Proof.
  destruct (app_layout tied_deaths) as [L|e] eqn:E; [|discriminate E].
  exists L. destruct (slider_marks_count tied_deaths L E) as (_ & _ & H5).
  vm_compute in E. injection E as <-.
  split; [reflexivity|]. split; [reflexivity|]. reflexivity.
Defined.

Lemma filter_all {A : Type} (p : A -> bool) (l : list A) :
  (forall a, In a l -> p a = true) -> filter p l = l.
Proof.
  induction l as [|a l IH]; intros H; simpl; [reflexivity|].
  rewrite (H a) by now left. f_equal. apply IH. intros b Hb. apply H. now right.
Qed.

Lemma app_layout_defaults (grouped : table) (L : Layout) :
  app_layout grouped = Ok L ->
  exists m,
    int_max (map Deaths grouped) = Ok m
    /\ dd_value (dropdown L) = "all"
    /\ rs_value (slider L) = [0; m]
    /\ dd_options (dropdown L) = mkOption "All" "all" :: country_options grouped.
Proof.
  unfold app_layout.
  destruct (int_max (map Deaths grouped)) as [m|e]; cbn [bind_result];
    [|discriminate].
  intros H. injection H as <-. exists m. repeat split.
Qed.

(** X14: when no row of the aggregated table has a negative Deaths value,
    the controls' default values (selection "all", range [0, max(Deaths)])
    filter nothing out: the filtered frame is the aggregated table. *)
Theorem default_controls_show_every_row (grouped : table) (L : Layout) :
  app_layout grouped = Ok L ->
  Forall (fun r => 0 <= Deaths r) grouped ->
  exists lo hi,
    rs_value (slider L) = [lo; hi]
    /\ filter_engine grouped (dd_value (dropdown L)) (lo, hi) = grouped.
Proof.
  intros HL Hpos.
  destruct (app_layout_defaults grouped L HL) as (m & Hm & Hv & Hr & _).
  apply int_max_spec in Hm. destruct Hm as [_ Hmax].
  exists 0, m. split; [exact Hr|]. rewrite Hv.
  unfold filter_engine. simpl. apply filter_all.
  intros r Hr'. rewrite Forall_forall in Hpos. rewrite Forall_map in Hmax.
  rewrite Forall_forall in Hmax.
  apply andb_true_iff. split; apply Z.leb_le; auto.
Qed.

Lemma default_controls_show_every_row_witness :
  exists L lo hi,
    app_layout sample_grouped = Ok L
    /\ rs_value (slider L) = [lo; hi]
    /\ filter_engine sample_grouped (dd_value (dropdown L)) (lo, hi)
       = sample_grouped.
Proof.
  destruct (app_layout sample_grouped) as [L|e] eqn:E; [|discriminate E].
  destruct (default_controls_show_every_row sample_grouped L E)
    as (lo & hi & H1 & H2).
  - repeat constructor; discriminate.
  - exists L, lo, hi. repeat split; assumption.
Defined.

(** X15: when no row of the aggregated table has a negative Deaths value,
    every option of the dropdown, taken with the slider's default range,
    selects at least one row; and an option other than "all" selects rows of
    its own country only. *)
Theorem every_option_selects_rows
        (grouped : table) (L : Layout) (o : dd_option) :
  app_layout grouped = Ok L ->
  Forall (fun r => 0 <= Deaths r) grouped ->
  In o (dd_options (dropdown L)) ->
  exists lo hi,
    rs_value (slider L) = [lo; hi]
    /\ filter_engine grouped (value o) (lo, hi) <> []
    /\ (value o <> "all" ->
        Forall (fun r => Country r = value o)
               (filter_engine grouped (value o) (lo, hi))).
Proof.
  intros HL Hpos Ho.
  destruct (app_layout_defaults grouped L HL) as (m & Hm & _ & Hr & Hopts).
  apply int_max_spec in Hm. destruct Hm as [Hin Hmax].
  rewrite Forall_map in Hmax. rewrite Forall_forall in Hpos, Hmax.
  exists 0, m. split; [exact Hr|]. split.
  - assert (Hrow : exists r, In r grouped
                             /\ (Country r = value o \/ value o = "all")).
    { rewrite Hopts in Ho. destruct Ho as [<-|Ho].
      - apply in_map_iff in Hin. destruct Hin as [r [_ Hr']].
        exists r. split; [exact Hr' | now right].
      - unfold country_options in Ho. apply in_map_iff in Ho.
        destruct Ho as [c [<- Hc]]. rewrite sorted_In in Hc.
        apply (proj1 (unique_In _ String.eqb_eq _ _)) in Hc.
        apply in_map_iff in Hc. destruct Hc as [r [Hc Hr']].
        exists r. split; [exact Hr' | now left]. }
    destruct Hrow as [r [Hr' Hsel]].
    assert (Hf : In r (filter_engine grouped (value o) (0, m))).
    { apply filter_engine_In. repeat split; auto. }
    intros E. rewrite E in Hf. destruct Hf.
  - intros Hne. apply Forall_forall. intros r Hr'.
    apply filter_engine_In in Hr'. destruct Hr' as (_ & _ & [H|H]);
      [exact H | contradiction].
Qed.

Lemma every_option_selects_rows_witness :
  exists L lo hi,
    app_layout sample_grouped = Ok L
    /\ In (mkOption "C" "C") (dd_options (dropdown L))
    /\ rs_value (slider L) = [lo; hi]
    /\ filter_engine sample_grouped "C" (lo, hi) <> [].
Proof.
  destruct (app_layout sample_grouped) as [L|e] eqn:E; [|discriminate E].
  assert (Ho : In (mkOption "C" "C") (dd_options (dropdown L))).
  { vm_compute in E. injection E as <-. simpl. tauto. }
  destruct (every_option_selects_rows sample_grouped L (mkOption "C" "C") E)
    as (lo & hi & H1 & H2 & _).
  - repeat constructor; discriminate.
  - exact Ho.
  - exists L, lo, hi. repeat split; assumption.
Defined.

(** * The further properties on the sample inputs *)

Lemma nunique_country_one_iff_witness :
  nunique String.eqb (map Country sample_grouped) <> 1%nat
  /\ ~ (sample_grouped <> []
        /\ forall r r', In r sample_grouped -> In r' sample_grouped ->
                        Country r = Country r').
Proof.
  split; [discriminate|].
  intros H. apply (proj2 (nunique_country_one_iff sample_grouped)) in H.
  discriminate H.
Defined.


Lemma groupby_agg_preserves_totals_witness :
  sum_col Deaths (groupby_agg (gm := exact_mean)
                              (clean (fl := binary64) sample_raw)) = 25
  /\ sum_col Deaths (clean (fl := binary64) sample_raw) = 25
  /\ sum_col Deaths (groupby_agg (gm := exact_mean)
                                 (clean (fl := binary64) overflow_raw))
     = sum_col Deaths (clean (fl := binary64) overflow_raw).
Proof.
  rewrite (proj1 (proj2 (groupby_agg_preserves_totals (gm := exact_mean)
                           (clean (fl := binary64) sample_raw)))).
  repeat split.
Defined.

Lemma groupby_agg_sorted_by_key_witness :
  map key_of (groupby_agg (gm := exact_mean)
                          (clean (fl := binary64) sample_raw))
  = [("A", "Asia"); ("B", "Europe"); ("C", "Africa")]
  /\ StronglySorted key_lt
       (map key_of (groupby_agg (gm := exact_mean)
                                (clean (fl := binary64) sample_raw))).
Proof.
  split; [reflexivity|].
  exact (proj1 (groupby_agg_sorted_by_key (gm := exact_mean)
                  (clean (fl := binary64) sample_raw))).
Defined.

Lemma app_layout_fails_iff_no_record_witness :
  app_layout (grouped_data (fl := binary64) (gm := exact_mean) [])
  = Raise ValueError.
Proof.
  apply (proj2 (app_layout_fails_iff_no_record (fl := binary64)
                  (gm := exact_mean) [] ValueError)).
  split; reflexivity.
Defined.
